(** * newsagent: the task execution and result-chaining layer

    A shallow embedding of the browser-side core of the news pipeline
    front end:

    - [apiCall] and [executeTask] of [src/config/api.ts] (request client
      and task poller),
    - the persistence block of [handleDiscover] in
      [src/app/news-discoverer/page.tsx] and [loadFromDiscoverer] of the
      classifier and exporter pages (artifact cache over [localStorage]),
    - [SessionProvider] and [useSession] (session identity).

    JavaScript values are JSON documents; asynchronous code runs in a
    state monad over a scripted network, whose log records every request
    and timer the program issues. *)

From Stdlib Require Import ZArith NArith String Ascii List Lia Bool.
From Stdlib Require Import DecimalString DecimalN DecimalFacts.
From stdpp Require Import base option strings gmap list.

Import ListNotations.
Local Open Scope string_scope.
Local Open Scope list_scope.
Local Open Scope Z_scope.

(** ** JavaScript values *)

(** A JSON document, as [response.json()] and [JSON.parse] produce it.

    A string is held as its UTF-8 text.  A number is an integer
    ([JNum n]) or a decimal fraction ([JDec m p], the number [m / 10^p]
    with [m] not divisible by 10).  JavaScript numbers are the binary64
    numbers, and a literal is rounded to the nearest of them; the
    decimal kept here is that number as long as the literal has at most
    15 significant digits and lies in the binary64 range.  An object is
    the list of its own properties, in the order in which JavaScript
    enumerates them. *)
#[warnings="-register-all"]
Inductive json : Type :=
| JNull
| JBool (b : bool)
| JNum (n : Z)
| JDec (m : Z) (p : positive)
| JStr (s : string)
| JArr (items : list json)
| JObj (fields : list (string * json)).

(** A JavaScript value is a JSON document or [undefined] ([None]). *)
Definition jsval : Type := option json.

(** The exceptions the program throws or lets through. *)
Inductive exn : Type :=
| Error (message : string)      (* [new Error(message)] *)
| TypeError (message : string)  (* property read on [null]; [fetch] network failure *)
| SyntaxError                   (* [JSON.parse] and [response.json()] on malformed text *)
| DOMException (name : string). (* [localStorage.setItem] refused by the user agent *)

Definition dquote : ascii := "034"%char.
Definition backslash : ascii := "092"%char.
Definition LF : string := String "010"%char EmptyString.

(** *** [Number::toString] *)

(** Decimal text of a natural number. *)
Definition digits_text (n : N) : string :=
  NilEmpty.string_of_uint (N.to_uint n).

Fixpoint zeros (n : nat) : string :=
  match n with
  | O => EmptyString
  | S k => String "0" (zeros k)
  end.

(** The digits without the zeros at their end. *)
Fixpoint strip_zeros (ds : string) : string :=
  match ds with
  | EmptyString => EmptyString
  | String c rest =>
      match strip_zeros rest with
      | EmptyString =>
          if Ascii.eqb c "0" then EmptyString else String c EmptyString
      | kept => String c kept
      end
  end.

Fixpoint string_take (n : nat) (s : string) : string :=
  match n, s with
  | S k, String c rest => String c (string_take k rest)
  | _, _ => EmptyString
  end.

Fixpoint string_drop (n : nat) (s : string) : string :=
  match n, s with
  | S k, String c rest => string_drop k rest
  | _, _ => s
  end.

(** The exponent part: [e+21], [e-7]. *)
Definition exponent_text (e : Z) : string :=
  String "e" (String (if e <? 0 then "-"%char else "+"%char)
                     (digits_text (Z.abs_N e))).

(** The digits [ds] in scientific notation, for the number
    [0.ds * 10^n]. *)
Definition scientific (ds : string) (n : Z) : string :=
  match ds with
  | EmptyString => EmptyString
  | String c EmptyString => String c (exponent_text (n - 1))
  | String c rest => String c (String "." (rest +:+ exponent_text (n - 1)))
  end.

(** [Number::toString] on a natural number: plain digits up to 21 of
    them, scientific notation beyond. *)
Definition natural_text (n : N) : string :=
  let ds := digits_text n in
  if (String.length ds <=? 21)%nat then ds
  else scientific (strip_zeros ds) (Z.of_nat (String.length ds)).

(** [Number::toString] on an integer. *)
Definition number_text (n : Z) : string :=
  if n <? 0 then String "-" (natural_text (Z.to_N (- n)))
  else natural_text (Z.to_N n).

(** [Number::toString] on the fraction [m / 10^p], [m] positive with
    [k] digits: with [n = k - p], the point goes behind [n] digits if
    [0 < n <= 21], the digits go behind [0.] and [-n] zeros if
    [-6 < n <= 0], and the notation is scientific otherwise. *)
Definition fraction_text (m : N) (p : positive) : string :=
  let ds := digits_text m in
  let n := Z.of_nat (String.length ds) - Z.pos p in
  if (0 <? n) && (n <=? 21) then
    string_take (Z.to_nat n) ds +:+ String "." (string_drop (Z.to_nat n) ds)
  else if (-6 <? n) && (n <=? 0) then
    String "0" (String "." (zeros (Z.to_nat (- n)) +:+ ds))
  else scientific ds n.

Definition decimal_text (m : Z) (p : positive) : string :=
  if m <? 0 then String "-" (fraction_text (Z.to_N (- m)) p)
  else fraction_text (Z.to_N m) p.

(** [ToString], used by template literals and by [new Error(value)]. *)
Fixpoint ToString (v : json) : string :=
  match v with
  | JNull => "null"
  | JBool true => "true"
  | JBool false => "false"
  | JNum n => number_text n
  | JDec m p => decimal_text m p
  | JStr s => s
  | JArr items =>
      String.concat ","
        (List.map (fun x => match x with
                            | JNull => EmptyString
                            | _ => ToString x
                            end) items)
  | JObj _ => "[object Object]"
  end.

(** [ToBoolean]: the falsy values are [undefined], [null], [false], [0]
    and the empty string. *)
Definition truthy (v : jsval) : bool :=
  match v with
  | None => false
  | Some JNull => false
  | Some (JBool b) => b
  | Some (JNum n) => negb (n =? 0)
  | Some (JDec m _) => negb (m =? 0)
  | Some (JStr s) => negb (String.eqb s EmptyString)
  | Some (JArr _) => true
  | Some (JObj _) => true
  end.

(** [value === 'text'] against a string literal. *)
Definition strict_eq_str (v : jsval) (lit : string) : bool :=
  match v with
  | Some (JStr s) => String.eqb s lit
  | _ => false
  end.

(** [Array.isArray(value)], returning the elements when it holds. *)
Definition as_array (v : jsval) : option (list json) :=
  match v with
  | Some (JArr items) => Some items
  | _ => None
  end.

(** Own property lookup in an object. *)
Fixpoint lookup_field (name : string) (fields : list (string * json)) : jsval :=
  match fields with
  | [] => None
  | (k, v) :: rest => if String.eqb k name then Some v else lookup_field name rest
  end.

(** ** JSON text *)

(** *** [JSON.stringify(value)] *)

Definition hex_digit (n : N) : ascii :=
  match n with
  | 0%N => "0" | 1%N => "1" | 2%N => "2" | 3%N => "3" | 4%N => "4"
  | 5%N => "5" | 6%N => "6" | 7%N => "7" | 8%N => "8" | 9%N => "9"
  | 10%N => "a" | 11%N => "b" | 12%N => "c" | 13%N => "d" | 14%N => "e"
  | _ => "f"
  end%char.

(** [QuoteJSONString] on one byte of the UTF-8 text: the quote, the
    backslash and the control characters are escaped, every other
    character is kept. *)
Definition escape_char (c : ascii) : string :=
  let n := N_of_ascii c in
  if (n =? 34)%N then String backslash (String dquote EmptyString)
  else if (n =? 92)%N then String backslash (String backslash EmptyString)
  else if (n =? 8)%N then String backslash "b"
  else if (n =? 12)%N then String backslash "f"
  else if (n =? 10)%N then String backslash "n"
  else if (n =? 13)%N then String backslash "r"
  else if (n =? 9)%N then String backslash "t"
  else if (n <? 32)%N then
    String backslash
      (String "u" (String "0" (String "0"
        (String (hex_digit (n / 16)) (String (hex_digit (n mod 16)) EmptyString)))))
  else String c EmptyString.

Fixpoint escape (s : string) : string :=
  match s with
  | EmptyString => EmptyString
  | String c rest => escape_char c +:+ escape rest
  end.

Definition quote (s : string) : string :=
  String dquote (escape s +:+ String dquote EmptyString).

Fixpoint JSON_stringify (v : json) : string :=
  match v with
  | JNull => "null"
  | JBool true => "true"
  | JBool false => "false"
  | JNum n => number_text n
  | JDec m p => decimal_text m p
  | JStr s => quote s
  | JArr items =>
      "[" +:+ String.concat "," (List.map JSON_stringify items) +:+ "]"
  | JObj fields =>
      "{" +:+ String.concat ","
               (List.map (fun kv => quote (fst kv) +:+ ":" +:+ JSON_stringify (snd kv))
                         fields)
          +:+ "}"
  end.

(** [JSON.stringify(value, null, 2)]: [indent] is the current indentation. *)
Fixpoint JSON_stringify_pretty (indent : string) (v : json) : string :=
  let inner := indent +:+ "  " in
  match v with
  | JArr [] => "[]"
  | JArr items =>
      "[" +:+ LF +:+ inner
          +:+ String.concat ("," +:+ LF +:+ inner)
               (List.map (JSON_stringify_pretty inner) items)
          +:+ LF +:+ indent +:+ "]"
  | JObj [] => "{}"
  | JObj fields =>
      "{" +:+ LF +:+ inner
          +:+ String.concat ("," +:+ LF +:+ inner)
               (List.map (fun kv => quote (fst kv) +:+ ": "
                                      +:+ JSON_stringify_pretty inner (snd kv))
                         fields)
          +:+ LF +:+ indent +:+ "}"
  | _ => JSON_stringify v
  end.

(** *** [JSON.parse(text)]

    A recursive-descent reader of the JSON grammar.  [None] stands for
    the [SyntaxError] that [JSON.parse] throws. *)

Definition is_ws (c : ascii) : bool :=
  let n := N_of_ascii c in
  ((n =? 32) || (n =? 9) || (n =? 10) || (n =? 13))%N.

Fixpoint skip_ws (s : string) : string :=
  match s with
  | EmptyString => EmptyString
  | String c rest => if is_ws c then skip_ws rest else s
  end.

(** **** Numbers *)

Definition is_digit (c : ascii) : bool :=
  let n := N_of_ascii c in ((48 <=? n) && (n <=? 57))%N.

Definition digit_value (c : ascii) : N := (N_of_ascii c - 48)%N.

(** The longest prefix of decimal digits, and what follows it. *)
Fixpoint read_digits (s : string) : string * string :=
  match s with
  | EmptyString => (EmptyString, EmptyString)
  | String c rest =>
      if is_digit c then
        let '(ds, r) := read_digits rest in (String c ds, r)
      else (EmptyString, s)
  end.

Fixpoint digits_value_from (acc : N) (ds : string) : N :=
  match ds with
  | EmptyString => acc
  | String c rest => digits_value_from (10 * acc + digit_value c)%N rest
  end.

(** The natural number that a sequence of digits denotes. *)
Definition digits_value (ds : string) : N := digits_value_from 0 ds.

(** The integer part of a literal: [0], or digits that do not begin
    with [0]. *)
Definition int_part_ok (ds : string) : bool :=
  match ds with
  | EmptyString => false
  | String c EmptyString => true
  | String c (String _ _) => negb (Ascii.eqb c "0")
  end.

(** The optional fraction: a point and at least one digit. *)
Definition read_fraction (s : string) : option (string * string) :=
  match s with
  | String c rest =>
      if Ascii.eqb c "." then
        let '(ds, r) := read_digits rest in
        match ds with
        | EmptyString => None
        | String _ _ => Some (ds, r)
        end
      else Some (EmptyString, s)
  | EmptyString => Some (EmptyString, s)
  end.

(** The optional exponent: [e] or [E], an optional sign and at least one
    digit. *)
Definition read_exponent (s : string) : option (Z * string) :=
  match s with
  | String c rest =>
      if Ascii.eqb c "e" || Ascii.eqb c "E" then
        let '(negative, s1) :=
          match rest with
          | String sign r =>
              if Ascii.eqb sign "-" then (true, r)
              else if Ascii.eqb sign "+" then (false, r)
              else (false, rest)
          | EmptyString => (false, rest)
          end in
        let '(ds, r) := read_digits s1 in
        match ds with
        | EmptyString => None
        | String _ _ =>
            let x := Z.of_N (digits_value ds) in
            Some (if negative then - x else x, r)
        end
      else Some (0, s)
  | EmptyString => Some (0, s)
  end.

(** The number [m / 10^places], with the zeros at the end of [m]
    cancelled. *)
Fixpoint decimal_of (places : nat) (m : Z) : json :=
  match places with
  | O => JNum m
  | S k =>
      if m mod 10 =? 0 then decimal_of k (m / 10)
      else JDec m (Pos.of_succ_nat k)
  end.

(** The number [m * 10^x]. *)
Definition make_number (m x : Z) : json :=
  if m =? 0 then JNum 0
  else if 0 <=? x then JNum (m * 10 ^ x)
  else decimal_of (Z.to_nat (- x)) m.

(** A number literal without its sign: the integer part, an optional
    fraction and an optional exponent. *)
Definition parse_unsigned (negative : bool) (s : string)
  : option (json * string) :=
  let '(ip, r1) := read_digits s in
  if int_part_ok ip then
    '(fp, r2) ← read_fraction r1;
    '(x, r3) ← read_exponent r2;
    let m := Z.of_N (digits_value (ip +:+ fp)) in
    Some (make_number (if negative then - m else m)
                      (x - Z.of_nat (String.length fp)), r3)
  else None.

(** A number literal, with its optional minus sign. *)
Definition parse_number (s : string) : option (json * string) :=
  match s with
  | String c r =>
      if Ascii.eqb c "-" then parse_unsigned true r
      else parse_unsigned false s
  | EmptyString => None
  end.

(** **** Strings *)

Definition unescape (e : ascii) : option ascii :=
  let n := N_of_ascii e in
  if (n =? 34)%N then Some dquote
  else if (n =? 92)%N then Some backslash
  else if (n =? 47)%N then Some "/"%char
  else if (n =? 98)%N then Some "008"%char
  else if (n =? 102)%N then Some "012"%char
  else if (n =? 110)%N then Some "010"%char
  else if (n =? 114)%N then Some "013"%char
  else if (n =? 116)%N then Some "009"%char
  else None.

Definition hex_value (c : ascii) : option N :=
  let n := N_of_ascii c in
  if ((48 <=? n) && (n <=? 57))%N then Some (n - 48)%N
  else if ((97 <=? n) && (n <=? 102))%N then Some (n - 87)%N
  else if ((65 <=? n) && (n <=? 70))%N then Some (n - 55)%N
  else None.

(** The code unit of a [\uXXXX] escape. *)
Definition code_unit (h1 h2 h3 h4 : ascii) : option N :=
  a ← hex_value h1; b ← hex_value h2; c ← hex_value h3; d ← hex_value h4;
  Some (((a * 16 + b) * 16 + c) * 16 + d)%N.

(** The UTF-8 text of a code point. *)
Definition utf8 (cp : N) : string :=
  (if cp <? 128 then String (ascii_of_N cp) EmptyString
   else if cp <? 2048 then
     String (ascii_of_N (192 + cp / 64))
       (String (ascii_of_N (128 + cp mod 64)) EmptyString)
   else if cp <? 65536 then
     String (ascii_of_N (224 + cp / 4096))
       (String (ascii_of_N (128 + (cp / 64) mod 64))
          (String (ascii_of_N (128 + cp mod 64)) EmptyString))
   else
     String (ascii_of_N (240 + cp / 262144))
       (String (ascii_of_N (128 + (cp / 4096) mod 64))
          (String (ascii_of_N (128 + (cp / 64) mod 64))
             (String (ascii_of_N (128 + cp mod 64)) EmptyString))))%N.

Definition is_high_surrogate (u : N) : bool := ((55296 <=? u) && (u <=? 56319))%N.
Definition is_low_surrogate (u : N) : bool := ((56320 <=? u) && (u <=? 57343))%N.

(** The code point of a surrogate pair. *)
Definition pair_code_point (high low : N) : N :=
  (65536 + (high - 55296) * 1024 + (low - 56320))%N.

(** The low surrogate that an escape at the head of [b u h1 h2 h3 h4]
    gives, if it is one. *)
Definition low_surrogate (b u h1 h2 h3 h4 : ascii) : option N :=
  if Ascii.eqb b backslash && Ascii.eqb u "u" then
    match code_unit h1 h2 h3 h4 with
    | Some low => if is_low_surrogate low then Some low else None
    | None => None
    end
  else None.

(** The characters of a string literal after its opening quote, up to
    and including the closing quote.  A high surrogate escape followed
    by a low surrogate escape is one code point. *)
Fixpoint parse_string_body (s : string) : option (string * string) :=
  match s with
  | EmptyString => None
  | String c rest =>
      if Ascii.eqb c dquote then Some (EmptyString, rest)
      else if Ascii.eqb c backslash then
        match rest with
        | String e rest1 =>
            if Ascii.eqb e "u" then
              match rest1 with
              | String h1 (String h2 (String h3 (String h4 rest2))) =>
                  high ← code_unit h1 h2 h3 h4;
                  if is_high_surrogate high then
                    match rest2 with
                    | String b (String u (String g1 (String g2
                        (String g3 (String g4 rest3))))) =>
                        match low_surrogate b u g1 g2 g3 g4 with
                        | Some low =>
                            '(str, r) ← parse_string_body rest3;
                            Some (utf8 (pair_code_point high low) +:+ str, r)
                        | None =>
                            '(str, r) ← parse_string_body rest2;
                            Some (utf8 high +:+ str, r)
                        end
                    | _ =>
                        '(str, r) ← parse_string_body rest2;
                        Some (utf8 high +:+ str, r)
                    end
                  else
                    '(str, r) ← parse_string_body rest2;
                    Some (utf8 high +:+ str, r)
              | _ => None
              end
            else
              x ← unescape e;
              '(str, r) ← parse_string_body rest1;
              Some (String x str, r)
        | EmptyString => None
        end
      else if (N_of_ascii c <? 32)%N then None
      else '(str, r) ← parse_string_body rest; Some (String c str, r)
  end.

(** [strip_prefix lit s]: the rest of [s] after the literal [lit]. *)
Fixpoint strip_prefix (lit s : string) : option string :=
  match lit, s with
  | EmptyString, _ => Some s
  | String a lit', String b s' =>
      if Ascii.eqb a b then strip_prefix lit' s' else None
  | String _ _, EmptyString => None
  end.

(** **** Objects *)

(** [obj[name] = v] on the properties in order of creation: an existing
    property keeps its place, a new one is appended. *)
Fixpoint obj_set (name : string) (v : json) (fields : list (string * json))
  : list (string * json) :=
  match fields with
  | [] => [(name, v)]
  | (k, w) :: rest =>
      if String.eqb k name then (k, v) :: rest
      else (k, w) :: obj_set name v rest
  end.

Fixpoint all_digits (s : string) : bool :=
  match s with
  | EmptyString => true
  | String c rest => is_digit c && all_digits rest
  end.

(** An array index: the canonical decimal text of an integer below
    [2^32 - 1]. *)
Definition array_index (k : string) : option N :=
  if all_digits k && int_part_ok k then
    let i := digits_value k in
    if (i <? 4294967295)%N then Some i else None
  else None.

(** A property with the array index [i], put at its place among
    properties of ascending indices. *)
Fixpoint insert_index (i : N) (kv : string * json)
    (l : list (string * json)) : list (string * json) :=
  match l with
  | [] => [kv]
  | x :: rest =>
      match array_index x.1 with
      | Some j =>
          if (i <=? j)%N then kv :: l else x :: insert_index i kv rest
      | None => kv :: l
      end
  end.

Fixpoint index_properties (fields : list (string * json))
  : list (string * json) :=
  match fields with
  | [] => []
  | kv :: rest =>
      match array_index kv.1 with
      | Some i => insert_index i kv (index_properties rest)
      | None => index_properties rest
      end
  end.

Fixpoint named_properties (fields : list (string * json))
  : list (string * json) :=
  match fields with
  | [] => []
  | kv :: rest =>
      match array_index kv.1 with
      | Some _ => named_properties rest
      | None => kv :: named_properties rest
      end
  end.

(** [OrdinaryOwnPropertyKeys]: the properties whose keys are array
    indices in ascending order of the index, then the others in order of
    creation. *)
Definition own_properties (created : list (string * json))
  : list (string * json) :=
  index_properties created ++ named_properties created.

(** The object a member list denotes: a repeated key keeps the place of
    its first occurrence and takes the last value. *)
Definition object_of (members : list (string * json)) : list (string * json) :=
  own_properties (fold_left (fun fields kv => obj_set kv.1 kv.2 fields) members []).

Fixpoint parse_value (fuel : nat) (s : string) {struct fuel}
  : option (json * string) :=
  match fuel with
  | O => None
  | S f =>
      match skip_ws s with
      | EmptyString => None
      | String c r =>
          if Ascii.eqb c "[" then
            match skip_ws r with
            | EmptyString => None
            | String c' r' =>
                if Ascii.eqb c' "]" then Some (JArr [], r')
                else '(items, r1) ← parse_elements f r; Some (JArr items, r1)
            end
          else if Ascii.eqb c "{" then
            match skip_ws r with
            | EmptyString => None
            | String c' r' =>
                if Ascii.eqb c' "}" then Some (JObj [], r')
                else '(members, r1) ← parse_members f r;
                     Some (JObj (object_of members), r1)
            end
          else if Ascii.eqb c dquote then
            '(str, r1) ← parse_string_body r; Some (JStr str, r1)
          else if Ascii.eqb c "t" then
            r1 ← strip_prefix "rue" r; Some (JBool true, r1)
          else if Ascii.eqb c "f" then
            r1 ← strip_prefix "alse" r; Some (JBool false, r1)
          else if Ascii.eqb c "n" then
            r1 ← strip_prefix "ull" r; Some (JNull, r1)
          else parse_number (String c r)
      end
  end
with parse_elements (fuel : nat) (s : string) {struct fuel}
  : option (list json * string) :=
  match fuel with
  | O => None
  | S f =>
      '(v, r) ← parse_value f s;
      match skip_ws r with
      | EmptyString => None
      | String c r1 =>
          if Ascii.eqb c "," then
            '(vs, r2) ← parse_elements f r1; Some (v :: vs, r2)
          else if Ascii.eqb c "]" then Some ([v], r1)
          else None
      end
  end
with parse_members (fuel : nat) (s : string) {struct fuel}
  : option (list (string * json) * string) :=
  match fuel with
  | O => None
  | S f =>
      match skip_ws s with
      | EmptyString => None
      | String c r =>
          if Ascii.eqb c dquote then
            '(k, r1) ← parse_string_body r;
            match skip_ws r1 with
            | EmptyString => None
            | String c1 r2 =>
                if Ascii.eqb c1 ":" then
                  '(v, r3) ← parse_value f r2;
                  match skip_ws r3 with
                  | EmptyString => None
                  | String c2 r4 =>
                      if Ascii.eqb c2 "," then
                        '(kvs, r5) ← parse_members f r4; Some ((k, v) :: kvs, r5)
                      else if Ascii.eqb c2 "}" then Some ([(k, v)], r4)
                      else None
                  end
                else None
            end
          else None
      end
  end.

(** The fuel is the length of the text: every call of the reader
    consumes a character. *)
Definition JSON_parse (text : string) : option json :=
  '(v, rest) ← parse_value (S (String.length text)) text;
  match skip_ws rest with
  | EmptyString => Some v
  | String _ _ => None
  end.

(** ** The runtime: a state monad with exceptions and suspension *)

(** How a computation ends: with a value, with a thrown exception (a
    rejected promise), or suspended at an [await] whose answer has not
    arrived. *)
Inductive Outcome (A : Type) : Type :=
| Resolved (a : A)
| Rejected (e : exn)
| Pending.
Arguments Resolved {A} a.
Arguments Rejected {A} e.
Arguments Pending {A}.

Definition JS (St A : Type) : Type := St → Outcome A * St.

#[local] Instance JS_ret {St} : MRet (JS St) :=
  λ A a st, (Resolved a, st).

#[local] Instance JS_bind {St} : MBind (JS St) :=
  λ A B k m st,
    match m st with
    | (Resolved a, st') => k a st'
    | (Rejected e, st') => (Rejected e, st')
    | (Pending, st') => (Pending, st')
    end.

Definition throw {St A} (e : exn) : JS St A :=
  λ st, (Rejected e, st).

(** [try { body } catch (e) { handler e }] *)
Definition try_catch {St A} (body : JS St A) (handler : exn → JS St A) : JS St A :=
  λ st,
    match body st with
    | (Rejected e, st') => handler e st'
    | other => other
    end.


Definition modify {St} (f : St → St) : JS St unit :=
  λ st, (Resolved (), f st).

Definition get_state {St} : JS St St :=
  λ st, (Resolved st, st).

Definition suspended {St A} : JS St A :=
  λ st, (Pending, st).

(** [value.name] for a name that is no built-in property of strings,
    arrays, numbers or booleans ([task_id], [status], [error],
    [articles]). *)
Definition get_prop {St} (v : json) (name : string) : JS St jsval :=
  match v with
  | JNull =>
      throw (TypeError ("Cannot read properties of null (reading '" +:+ name +:+ "')"))
  | JObj fields => mret (lookup_field name fields)
  | _ => mret None
  end.

(** [value?.name] *)
Definition get_prop_opt (v : jsval) (name : string) : jsval :=
  match v with
  | Some (JObj fields) => lookup_field name fields
  | _ => None
  end.

(** A value spliced into a template literal. *)
Definition template_text (v : jsval) : string :=
  match v with
  | Some x => ToString x
  | None => "undefined"
  end.

(** ** The network *)

Record Response : Type := {
  status : Z;
  statusText : string;
  responseText : string  (* the bytes of the body *)
}.

(** [response.ok]: the status is in the range 200-299. *)
Definition Response_ok (r : Response) : bool :=
  (200 <=? status r) && (status r <=? 299).

Record RequestInit : Type := {
  method : option string;
  headers : option (gmap string string);
  body : option string
}.

#[local] Instance RequestInit_eq_dec : EqDecision RequestInit.
Proof. solve_decision. Defined.

(** What the network answers to one request. *)
Inductive FetchResult : Type :=
| NetworkFailure
| Responds (r : Response).

(** What the program asks of its environment. *)
Inductive Event : Type :=
| Fetch (url : string) (init : RequestInit)
| SetTimeout (ms : Z).

#[local] Instance Event_eq_dec : EqDecision Event.
Proof. solve_decision. Defined.

(** The answers still to come, one per request in order, and the
    requests and timers issued so far. *)
Record World : Type := {
  network : list FetchResult;
  log : list Event
}.

Definition emit (e : Event) (net : list FetchResult) (w : World) : World :=
  {| network := net; log := log w ++ [e] |}.

(** [await fetch(url, init)] *)
Definition fetch (url : string) (init : RequestInit) : JS World Response :=
  λ w,
    match network w with
    | [] => (Pending, emit (Fetch url init) [] w)
    | NetworkFailure :: net =>
        (Rejected (TypeError "Failed to fetch"), emit (Fetch url init) net w)
    | Responds r :: net => (Resolved r, emit (Fetch url init) net w)
    end.

(** The UTF-8 decoding of a body, which is taken to be well-formed
    UTF-8: a byte order mark at its head is dropped. *)
Definition utf8_decode (bytes : string) : string :=
  match bytes with
  | String "239" (String "187" (String "191" text)) => text
  | _ => bytes
  end.

(** [response.json()]: the body is decoded and read as JSON. *)
Definition Response_json {St} (r : Response) : JS St json :=
  match JSON_parse (utf8_decode (responseText r)) with
  | Some v => mret v
  | None => throw SyntaxError
  end.

(** [await new Promise(resolve => setTimeout(resolve, ms))] *)
Definition sleep (ms : Z) : JS World unit :=
  λ w, (Resolved (), emit (SetTimeout ms) (network w) w).

(** ** [src/config/api.ts] *)

(** [process.env] as far as the program reads it. *)
Class ProcessEnv : Type := {
  NEXT_PUBLIC_API_URL : option string
}.

(** [{ ...base, ...extra }] on request options: a property of [extra]
    replaces the one of [base]. *)
Definition or_else {A} (x y : option A) : option A :=
  match x with Some _ => x | None => y end.

Definition spread_init (base extra : RequestInit) : RequestInit :=
  {| method := or_else (method extra) (method base);
     headers := or_else (headers extra) (headers base);
     body := or_else (body extra) (body base) |}.

(** [{ ...base, ...extra }] on header objects. *)
Definition spread_headers (base : gmap string string)
    (extra : option (gmap string string)) : gmap string string :=
  default ∅ extra ∪ base.

Definition no_options : RequestInit :=
  {| method := None; headers := None; body := None |}.

Section Api.
Context `{ProcessEnv}.

Definition API_BASE_URL : string :=
  match NEXT_PUBLIC_API_URL with
  | Some url => if String.eqb url EmptyString then "http://localhost:8000" else url
  | None => "http://localhost:8000"
  end.

Definition NEWS_DISCOVERER : string := API_BASE_URL +:+ "/api/news/discoverer".
Definition DATA_EXPORTER : string := API_BASE_URL +:+ "/api/news/exporter".
Definition CLASSIFY : string := API_BASE_URL +:+ "/classify".

Definition TASK_STATUS (taskId : jsval) : string :=
  API_BASE_URL +:+ "/api/tasks/" +:+ template_text taskId.

Definition TASK_RESULT (taskId : jsval) : string :=
  API_BASE_URL +:+ "/api/tasks/" +:+ template_text taskId +:+ "/result".

(** The second argument of [fetch] in [apiCall]:
    [{ headers: { 'Content-Type': 'application/json', ...options.headers },
       ...options }]. *)
Definition fetch_init (options : RequestInit) : RequestInit :=
  spread_init
    {| method := None;
       headers := Some (spread_headers {["Content-Type" := "application/json"]}
                                       (headers options));
       body := None |}
    options.

(** The [url] of [apiCall]. *)
Definition request_url (endpoint : string) : string :=
  if String.prefix "http" endpoint then endpoint
  else API_BASE_URL +:+ endpoint.

Definition apiCall (endpoint : string) (options : RequestInit) : JS World json :=
  let url := request_url endpoint in
  response ← fetch url (fetch_init options);
  if negb (Response_ok response) then
    throw (Error ("API Error: " +:+ number_text (status response)
                     +:+ " " +:+ statusText response))
  else Response_json response.

(** The closure [pollForResults] of [executeTask].  Every round awaits
    one status answer; [fuel] bounds the rounds and [executeTask]
    supplies more than the network script can serve. *)
Fixpoint pollForResults (fuel : nat) (initialResponse : json) : JS World json :=
  match fuel with
  | O => suspended
  | S fuel' =>
      task_id ← get_prop initialResponse "task_id";
      status ← apiCall (TASK_STATUS task_id) no_options;
      st ← get_prop status "status";
      if strict_eq_str st "completed" then
        task_id ← get_prop initialResponse "task_id";
        apiCall (TASK_RESULT task_id) no_options
      else if strict_eq_str st "failed" then
        error ← get_prop status "error";
        throw (Error (if truthy error then template_text error else "Task failed"))
      else
        _ ← sleep 2000;
        pollForResults fuel' initialResponse
  end.

Definition executeTask (endpoint : string) (payload : json) : JS World json :=
  initialResponse ←
    apiCall endpoint
      {| method := Some "POST"; headers := None;
         body := Some (JSON_stringify payload) |};
  task_id ← get_prop initialResponse "task_id";
  if truthy task_id then
    w ← get_state;
    pollForResults (S (length (network w))) initialResponse
  else
    mret initialResponse.
End Api.

(** ** The browser tab *)

Inductive ConsoleEntry : Type :=
| ConsoleError (label : option string) (e : exn)
| ConsoleWarn (label : string) (e : exn).

(** An [alert]: a fixed text, or a prefix followed by the message of a
    caught exception. *)
Inductive Alert : Type :=
| AlertText (text : string)
| AlertError (prefix : string) (e : exn).

(** A tab: the network, [localStorage], the clock as
    [new Date().toISOString()] reads it, what was shown and logged, and
    the React state of the page on display.  [accepts store key value]
    tells whether the user agent takes the write of [value] under [key]
    into [store]: [setItem] throws when the quota is exceeded, and the
    quota is the user agent's own. *)
Record Tab (Page : Type) : Type := {
  world : World;
  localStorage : gmap string string;
  accepts : gmap string string → string → string → bool;
  clock : string;
  alerts : list Alert;
  console : list ConsoleEntry;
  page : Page
}.
Arguments world {Page} _.
Arguments localStorage {Page} _.
Arguments accepts {Page} _.
Arguments clock {Page} _.
Arguments alerts {Page} _.
Arguments console {Page} _.
Arguments page {Page} _.

Section TabOps.
Context {Page : Type}.



Definition with_page (p : Page) (t : Tab Page) : Tab Page :=
  {| world := world t; localStorage := localStorage t;
     accepts := accepts t; clock := clock t;
     alerts := alerts t; console := console t; page := p |}.


Definition localStorage_getItem (key : string) : JS (Tab Page) (option string) :=
  λ t, (Resolved (localStorage t !! key), t).



Definition alert (a : Alert) : JS (Tab Page) unit :=
  modify (λ t, {| world := world t; localStorage := localStorage t;
                  accepts := accepts t; clock := clock t; alerts := alerts t ++ [a];
                  console := console t; page := page t |}).

Definition console_log (c : ConsoleEntry) : JS (Tab Page) unit :=
  modify (λ t, {| world := world t; localStorage := localStorage t;
                  accepts := accepts t; clock := clock t; alerts := alerts t;
                  console := console t ++ [c]; page := page t |}).

(** A React state setter. *)
Definition set_page (f : Page → Page) : JS (Tab Page) unit :=
  modify (λ t, with_page (f (page t)) t).

(** [JSON.parse(text)] as a statement that may throw. *)
Definition JSON_parse_js (text : string) : JS (Tab Page) json :=
  match JSON_parse text with
  | Some v => mret v
  | None => throw SyntaxError
  end.
End TabOps.

(** ** [src/app/news-discoverer/page.tsx] *)

Module Discoverer.
Record Page : Type := {
  query : string;
  daysBack : Z;
  maxArticles : Z;
  result : option json;  (* [None] is [null] *)
  loading : bool
}.




Section Handlers.
Context `{ProcessEnv}.

End Handlers.
End Discoverer.

(** ** The classifier page (and, with the same text, the exporter page) *)

Module Classifier.
Record Page : Type := {
  articles : string;
  companySet : string;
  result : option json;
  loading : bool;
  discovered : list json;
  selectedIndex : Z
}.

Definition setDiscovered (l : list json) : JS (Tab Page) unit :=
  set_page (λ p, {| articles := articles p; companySet := companySet p;
                    result := result p; loading := loading p;
                    discovered := l; selectedIndex := selectedIndex p |}).

Definition setSelectedIndex (i : Z) : JS (Tab Page) unit :=
  set_page (λ p, {| articles := articles p; companySet := companySet p;
                    result := result p; loading := loading p;
                    discovered := discovered p; selectedIndex := i |}).

Definition setArticles (s : string) : JS (Tab Page) unit :=
  set_page (λ p, {| articles := s; companySet := companySet p;
                    result := result p; loading := loading p;
                    discovered := discovered p;
                    selectedIndex := selectedIndex p |}).

Definition loadFromDiscoverer : JS (Tab Page) unit :=
  try_catch
    (raw ← localStorage_getItem "bynd:last_discovered_articles";
     arr ← match raw with
           | Some text =>
               if String.eqb text EmptyString then mret (JArr [])
               else JSON_parse_js text
           | None => mret (JArr [])
           end;
     match as_array (Some arr) with
     | Some (x :: rest) =>
         _ ← setDiscovered (x :: rest);
         _ ← setSelectedIndex (-1);
         setArticles
           (JSON_stringify_pretty EmptyString
              (JObj [("articles", JArr (x :: rest))]))
     | _ =>
         alert (AlertText "No discovered articles found. Run News Discoverer first.")
     end)
    (λ e,
       _ ← console_log (ConsoleError None e);
       alert (AlertText "Failed to load discovered articles")).
End Classifier.

(** ** The session context *)

Module Session.
(** The value of the context; its two setters are [setUserId] and
    [setSessionId] below, acting on the provider's state. *)
Record SessionContextType : Type := {
  userId : string;
  sessionId : string
}.

(** The two [useState] cells of one provider instance; [None] before
    the first render. *)
Record Hooks : Type := {
  userId_cell : option string;
  sessionId_cell : option string
}.

Definition unmounted : Hooks :=
  {| userId_cell := None; sessionId_cell := None |}.

(** [useState(initial)]: the initial value counts on the first render
    only. *)
Definition useState (cell : option string) (initial : string) : string :=
  default initial cell.

(** One render of [SessionProvider].  [random1] and [random2] are what
    [Math.random().toString(36)] yields in this render; the result is
    the context value handed to the children and the provider's state
    after the render. *)
Definition SessionProvider (random1 random2 : string) (h : Hooks)
  : SessionContextType * Hooks :=
  let userId := useState (userId_cell h) ("user_" +:+ substring 2 9 random1) in
  let sessionId :=
    useState (sessionId_cell h) ("session_" +:+ substring 2 9 random2) in
  ({| userId := userId; sessionId := sessionId |},
   {| userId_cell := Some userId; sessionId_cell := Some sessionId |}).

Definition setUserId (id : string) (h : Hooks) : Hooks :=
  {| userId_cell := Some id; sessionId_cell := sessionId_cell h |}.

Definition setSessionId (id : string) (h : Hooks) : Hooks :=
  {| userId_cell := userId_cell h; sessionId_cell := Some id |}.

(** [useSession()]; [context] is what [useContext(SessionContext)]
    returns: the value of the enclosing provider, or [undefined]. *)
Definition useSession (context : option SessionContextType)
  : Outcome SessionContextType :=
  match context with
  | None => Rejected (Error "useSession must be used within a SessionProvider")
  | Some c => Resolved c
  end.
End Session.

(** ** Notions used in the statements *)

(** A text that does not begin with a digit. *)
Definition no_digit_ahead (s : string) : Prop :=
  match s with
  | EmptyString => True
  | String c _ => is_digit c = false
  end.

(** A character with which a number literal may go on. *)
Definition continues_number (c : ascii) : bool :=
  is_digit c || Ascii.eqb c "." || Ascii.eqb c "e" || Ascii.eqb c "E".

(** A text that does not go on a number literal: what may follow a
    number. *)
Definition delimited (s : string) : Prop :=
  match s with
  | EmptyString => True
  | String c _ => continues_number c = false
  end.

Definition is_index (k : string) : bool :=
  match array_index k with Some _ => true | None => false end.

(** Keys in the order of [OrdinaryOwnPropertyKeys]: array indices,
    ascending, before all other keys. *)
Fixpoint property_order (keys : list string) : bool :=
  match keys with
  | [] => true
  | k :: rest =>
      match array_index k with
      | None => forallb (λ k', negb (is_index k')) rest
      | Some i =>
          match rest with
          | k' :: _ =>
              match array_index k' with
              | Some j => (i <=? j)%N
              | None => true
              end
          | [] => true
          end && property_order rest
      end
  end.


(** A document as JavaScript holds it: the keys of every object are
    pairwise distinct and in the order of enumeration, and the digits of
    a fraction do not end in a zero. *)
Fixpoint well_formed (v : json) : bool :=
  match v with
  | JDec m _ => negb (m mod 10 =? 0)
  | JArr items => forallb well_formed items
  | JObj fields =>
      bool_decide (NoDup (List.map fst fields))
      && property_order (List.map fst fields)
      && forallb (λ kv, well_formed (snd kv)) fields
  | _ => true
  end.

(** The first character of a printed document: no white space and no
    closing bracket. *)
Definition opens_value (c : ascii) : Prop :=
  is_ws c = false ∧ Ascii.eqb c "]" = false ∧ Ascii.eqb c "}" = false.


(** [parse_value] reads the printed document back, whatever follows it. *)
Definition reads_back (v : json) : Prop :=
  ∀ fuel rest,
    (String.length (JSON_stringify v) ≤ fuel)%nat →
    delimited rest →
    parse_value fuel (JSON_stringify v +:+ rest) = Some (v, rest).

(** The text of one object member. *)
Definition member_text (kv : string * json) : string :=
  quote kv.1 +:+ ":" +:+ JSON_stringify kv.2.

Section Notions.
Context `{ProcessEnv}.

(** What [apiCall] yields when the network answers [r]. *)
Definition received (r : FetchResult) : Outcome json :=
  (apiCall EmptyString no_options {| network := [r]; log := [] |}).1.

(** The [status] property of a status answer. *)
Definition status_field (r : FetchResult) : jsval :=
  match received r with
  | Resolved v => get_prop_opt (Some v) "status"
  | _ => None
  end.

Definition reports (r : FetchResult) (s : string) : bool :=
  strict_eq_str (status_field r) s.

(** A terminal status: [completed] or [failed]. *)
Definition terminal (r : FetchResult) : bool :=
  reports r "completed" || reports r "failed".

(** A status answer that is not terminal: the call succeeded with a
    document other than [null] whose status is neither [completed] nor
    [failed]. *)
Definition still_running (r : FetchResult) : bool :=
  match received r with
  | Resolved JNull => false
  | Resolved _ => negb (terminal r)
  | _ => false
  end.

(** The requests of [executeTask]. *)
Definition submit_call (endpoint : string) (payload : json) : Event :=
  Fetch (request_url endpoint)
        (fetch_init {| method := Some "POST"; headers := None;
                       body := Some (JSON_stringify payload) |}).

Definition status_call (task_id : jsval) : Event :=
  Fetch (request_url (TASK_STATUS task_id)) (fetch_init no_options).

Definition result_call (task_id : jsval) : Event :=
  Fetch (request_url (TASK_RESULT task_id)) (fetch_init no_options).

Definition wait_2s : Event := SetTimeout 2000.

(** What the poll loop is to issue against the status answers
    [answers]: a status call, then a 2-second wait and a further round
    while the answer is not terminal, the result call once it is
    [completed], nothing more otherwise. *)
Fixpoint poll_requests (task_id : jsval) (answers : list FetchResult)
  : list Event :=
  match answers with
  | [] => [status_call task_id]
  | r :: rest =>
      if still_running r then
        status_call task_id :: wait_2s :: poll_requests task_id rest
      else if reports r "completed" then
        [status_call task_id; result_call task_id]
      else [status_call task_id]
  end.

(** A status answer of a task still at work. *)
Definition running_answer : FetchResult :=
  Responds {| status := 200; statusText := "OK";
              responseText := JSON_stringify (JObj [("status", JStr "running")]) |}.

(** The rounds that end in a wait. *)
Definition waiting_rounds (task_id : jsval) (running : list FetchResult)
  : list Event :=
  flat_map (λ _, [status_call task_id; wait_2s]) running.

(** How often the request [e] occurs in a log. *)
Definition count_calls (e : Event) (l : list Event) : nat :=
  length (filter (λ x, x = e) l).
End Notions.





(** The payload [handleDiscover] submits. *)
Definition discover_payload (p : Discoverer.Page) : json :=
  JObj [("query", JStr (Discoverer.query p));
        ("days_back", JNum (Discoverer.daysBack p));
        ("max_articles", JNum (Discoverer.maxArticles p))].

(** The "absent" outcome of [loadFromDiscoverer]: it completes normally,
    shows [a] and leaves storage and page state as they were. *)
Definition absent_outcome (a : Alert) (t : Tab Classifier.Page)
    (run : Outcome unit * Tab Classifier.Page) : Prop :=
  run.1 = Resolved ()
  ∧ alerts run.2 = alerts t ++ [a]
  ∧ page run.2 = page t
  ∧ localStorage run.2 = localStorage t.

(** ** Sample inputs *)

(** Request options with a header of the caller's and no content type. *)
Definition authorized_options : RequestInit :=
  {| method := None;
     headers := Some {["Authorization" := "Bearer token"]};
     body := None |}.

Definition json_response (v : json) : FetchResult :=
  Responds {| status := 200; statusText := "OK";
              responseText := JSON_stringify v |}.

Definition local_env : ProcessEnv := {| NEXT_PUBLIC_API_URL := None |}.

Definition fresh_world (answers : list FetchResult) : World :=
  {| network := answers; log := [] |}.

Definition fresh_tab {Page} (ls : gmap string string) (p : Page) : Tab Page :=
  {| world := fresh_world []; localStorage := ls;
     accepts := λ _ _ _, true;
     clock := "2026-01-01T00:00:00.000Z"; alerts := []; console := [];
     page := p |}.


Definition discoverer_page : Discoverer.Page :=
  {| Discoverer.query := "AI companies"; Discoverer.daysBack := 7;
     Discoverer.maxArticles := 50; Discoverer.result := None;
     Discoverer.loading := false |}.

Definition classifier_page (earlier : list json) : Classifier.Page :=
  {| Classifier.articles := EmptyString;
     Classifier.companySet := "OpenAI,Anthropic";
     Classifier.result := None; Classifier.loading := false;
     Classifier.discovered := earlier; Classifier.selectedIndex := -1 |}.

(** The answers of the first end-to-end scenario of the specification:
    the task [t1], polled as running and then completed, and its result. *)
Definition task_response : FetchResult :=
  json_response (JObj [("task_id", JStr "t1")]).

Definition completed_answer : FetchResult :=
  json_response (JObj [("status", JStr "completed")]).

Definition failed_answer : FetchResult :=
  json_response (JObj [("status", JStr "failed");
                       ("error", JStr "timeout upstream")]).

(** A status answer of a task half way through. *)
Definition halfway_answer : FetchResult :=
  json_response (JObj [("status", JStr "running"); ("progress", JDec 5 1)]).

Definition discovered_articles : list json :=
  [JObj [("title", JStr "Model release — what is new");
         ("url", JStr "https://example.org/a");
         ("relevance", JDec 95 2)];
   JObj [("title", JStr "Funding round");
         ("url", JStr "https://example.org/b");
         ("relevance", JDec 5 1)]].

Definition result_answer : FetchResult :=
  json_response (JObj [("articles", JArr discovered_articles);
                       ("total_found", JNum 2)]).

Definition classify_response : json :=
  JObj [("status", JStr "success"); ("by_company", JObj []);
        ("unclassified", JArr [])].

Definition not_found : Response :=
  {| status := 404; statusText := "Not Found"; responseText := "<html>" |}.

(** A success response whose body is the classification answer, and one
    whose body is no JSON. *)
Definition classified : Response :=
  {| status := 200; statusText := "OK";
     responseText := JSON_stringify classify_response |}.

Definition gateway_page : Response :=
  {| status := 200; statusText := "OK"; responseText := "<html>" |}.
(** * Properties *)

#[local] Arguments String.append !_ _ : simpl nomatch.

(** ** Text *)

Lemma append_assoc (a b c : string) : (a +:+ b) +:+ c = a +:+ (b +:+ c).
Proof. induction a as [|x a IH]; simpl; [reflexivity | by rewrite IH]. Qed.

Lemma append_nil_r (a : string) : a +:+ EmptyString = a.
Proof. induction a as [|x a IH]; simpl; [reflexivity | by rewrite IH]. Qed.

Lemma length_append (a b : string) :
  String.length (a +:+ b) = (String.length a + String.length b)%nat.
Proof. induction a as [|x a IH]; simpl; [reflexivity | by rewrite IH]. Qed.

(** ** Digits *)

Lemma delimited_no_digit (s : string) : delimited s → no_digit_ahead s.
Proof.
  destruct s as [|c s]; [done|]. unfold delimited, continues_number. cbn.
  by destruct (is_digit c).
Qed.

Lemma read_digits_stop (s : string) :
  no_digit_ahead s → read_digits s = (EmptyString, s).
Proof. destruct s as [|c s]; cbn; [done|]. by intros ->. Qed.

Lemma read_digits_app (ds rest : string) :
  all_digits ds = true → no_digit_ahead rest →
  read_digits (ds +:+ rest) = (ds, rest).
Proof.
  intros Hds Hrest. induction ds as [|c ds IH]; cbn.
  - by apply read_digits_stop.
  - cbn in Hds. apply andb_prop in Hds as [-> Hds]. by rewrite IH.
Qed.

Lemma digits_value_from_app (a b : string) :
  ∀ acc, digits_value_from acc (a +:+ b)
         = digits_value_from (digits_value_from acc a) b.
Proof. induction a as [|c a IH]; intros acc; cbn; [done|]. apply IH. Qed.

Lemma all_digits_app (a b : string) :
  all_digits (a +:+ b) = all_digits a && all_digits b.
Proof.
  induction a as [|c a IH]; cbn; [done|]. by rewrite IH, andb_assoc.
Qed.

Lemma string_of_uint_digits (d : Decimal.uint) :
  all_digits (NilEmpty.string_of_uint d) = true.
Proof. induction d; cbn; done. Qed.

Lemma digits_value_from_uint (d : Decimal.uint) :
  ∀ acc, digits_value_from (Npos acc) (NilEmpty.string_of_uint d)
         = Npos (Pos.of_uint_acc d acc).
Proof.
  induction d; intros acc;
    cbn [NilEmpty.string_of_uint digits_value_from Pos.of_uint_acc];
    [done | rewrite <- IHd; f_equal; unfold digit_value; cbn; lia ..].
Qed.

Lemma digits_value_uint (d : Decimal.uint) :
  digits_value (NilEmpty.string_of_uint d) = N.of_uint d.
Proof.
  unfold digits_value, N.of_uint.
  induction d; cbn [NilEmpty.string_of_uint digits_value_from Pos.of_uint];
    [done | exact IHd | apply digits_value_from_uint ..].
Qed.

Lemma digits_text_digits (n : N) : all_digits (digits_text n) = true.
Proof. apply string_of_uint_digits. Qed.

Lemma digits_value_text (n : N) : digits_value (digits_text n) = n.
Proof.
  unfold digits_text. rewrite digits_value_uint.
  apply DecimalN.Unsigned.of_to.
Qed.

(** The decimal text of a natural number begins with a digit, which is
    not [0] unless the number is. *)
Lemma to_uint_head (n : N) :
  n ≠ 0%N → ∀ d, N.to_uint n ≠ Decimal.D0 d.
Proof.
  intros Hn d Heq.
  pose proof (DecimalN.Unsigned.to_of (N.to_uint n)) as Hnorm.
  rewrite DecimalN.Unsigned.of_to in Hnorm.
  rewrite Heq in Hnorm. unfold Decimal.unorm in Hnorm. cbn [Decimal.nzhead] in Hnorm.
  destruct (Decimal.nzhead d) eqn:Hd; try discriminate.
  - injection Hnorm as ->.
    apply Hn. rewrite <- (DecimalN.Unsigned.of_to n), Heq. reflexivity.
  - by apply DecimalFacts.nzhead_nonzero in Hd.
Qed.

Lemma digits_text_head (n : N) :
  ∃ c r, digits_text n = String c r ∧ is_digit c = true
         ∧ (n ≠ 0%N → Ascii.eqb c "0" = false).
Proof.
  unfold digits_text.
  destruct (N.to_uint n) as [|d|d|d|d|d|d|d|d|d|d] eqn:Hd.
  - destruct n as [|p]; [discriminate|].
    by apply DecimalPos.Unsigned.to_uint_nonnil in Hd.
  - eexists _, _. split; [reflexivity|]. split; [done|].
    intros Hn. by apply (to_uint_head n Hn) in Hd.
  - by eexists _, _.
  - by eexists _, _.
  - by eexists _, _.
  - by eexists _, _.
  - by eexists _, _.
  - by eexists _, _.
  - by eexists _, _.
  - by eexists _, _.
  - by eexists _, _.
Qed.

Lemma digits_text_zero : digits_text 0%N = "0".
Proof. reflexivity. Qed.

Lemma int_part_ok_digits_text (n : N) : int_part_ok (digits_text n) = true.
Proof.
  destruct (N.eq_dec n 0%N) as [->|Hn]; [reflexivity|].
  destruct (digits_text_head n) as (c & r & -> & _ & Hc).
  cbn. destruct r; [done|]. by rewrite (Hc Hn).
Qed.

Lemma digits_value_from_zeros (j : nat) :
  ∀ acc, digits_value_from acc (zeros j) = (acc * 10 ^ N.of_nat j)%N.
Proof.
  induction j as [|j IH]; intros acc.
  - cbn. lia.
  - cbn [zeros digits_value_from]. rewrite IH.
    unfold digit_value. cbn [N_of_ascii].
    rewrite Nat2N.inj_succ, N.pow_succ_r'. cbn. lia.
Qed.

Lemma all_digits_zeros (j : nat) : all_digits (zeros j) = true.
Proof. induction j; cbn; done. Qed.

Lemma length_zeros (j : nat) : String.length (zeros j) = j.
Proof. induction j as [|j IH]; cbn; [done | by rewrite IH]. Qed.

Lemma strip_zeros_app (ds : string) :
  ∃ j, ds = strip_zeros ds +:+ zeros j.
Proof.
  induction ds as [|c ds [j IH]]; [by exists O|].
  cbn [strip_zeros]. destruct (strip_zeros ds) as [|k kept] eqn:Hk.
  - destruct (Ascii.eqb_spec c "0") as [->|_].
    + exists (S j). cbn in *. by rewrite IH at 1.
    + exists j. cbn in *. by rewrite IH at 1.
  - exists j. cbn [String.append] in *. by rewrite IH at 1.
Qed.

Lemma strip_zeros_head (c : ascii) (r : string) :
  Ascii.eqb c "0" = false →
  ∃ kept, strip_zeros (String c r) = String c kept.
Proof.
  intros Hc. cbn. rewrite Hc. destruct (strip_zeros r); by eexists.
Qed.

Lemma string_take_drop (n : nat) (s : string) :
  string_take n s +:+ string_drop n s = s.
Proof.
  revert s. induction n as [|n IH]; intros [|c s]; cbn; try done.
  by rewrite IH.
Qed.

Lemma length_string_drop (n : nat) (s : string) :
  String.length (string_drop n s) = (String.length s - n)%nat.
Proof.
  revert s. induction n as [|n IH]; intros [|c s]; cbn; try done.
Qed.

Lemma string_take_head (n : nat) (c : ascii) (r : string) :
  string_take (S n) (String c r) = String c (string_take n r).
Proof. reflexivity. Qed.

(** ** Number literals *)

Lemma make_number_integer (m : Z) : make_number m 0 = JNum m.
Proof.
  unfold make_number. destruct (Z.eqb_spec m 0) as [->|_]; [done|].
  cbn. by rewrite Z.mul_1_r.
Qed.

Lemma make_number_fraction (m : Z) (p : positive) :
  (m mod 10 =? 0) = false → make_number m (- Z.pos p) = JDec m p.
Proof.
  intros Hm. unfold make_number.
  destruct (Z.eqb_spec m 0) as [->|_]; [done|].
  destruct (Z.leb_spec 0 (- Z.pos p)) as [?|_]; [lia|].
  rewrite Z.opp_involutive, Z2Nat.inj_pos.
  destruct (Pos2Nat.is_succ p) as [k Hk]. rewrite Hk. cbn [decimal_of].
  rewrite Hm. f_equal.
  apply Pos2Nat.inj. by rewrite SuccNat2Pos.id_succ.
Qed.

Lemma signed_mod_10 (negative : bool) (m : N) :
  (m mod 10 =? 0)%N = false →
  ((if negative then - Z.of_N m else Z.of_N m) mod 10 =? 0) = false.
Proof.
  intros Hm%N.eqb_neq. apply Z.eqb_neq. intros Hz. apply Hm.
  assert ((Z.of_N m) mod 10 = 0) as Hz'.
  { destruct negative; [|done].
    apply Z.mod_divide in Hz; [|lia]. apply Z.mod_divide; [lia|].
    apply Z.divide_opp_r. exact Hz. }
  apply N2Z.inj. rewrite N2Z.inj_mod. exact Hz'.
Qed.

(** The reader on a literal: the integer part [a], the fraction [b] if
    it is not empty, and the exponent [x] if there is one. *)
Lemma parse_unsigned_literal (negative : bool) (a b : string)
    (x : option Z) (rest : string) :
  all_digits a = true → int_part_ok a = true → all_digits b = true →
  delimited rest →
  parse_unsigned negative
    (a +:+ match b with
           | EmptyString => EmptyString
           | String _ _ => String "." b
           end
       +:+ match x with
           | Some e => exponent_text e
           | None => EmptyString
           end +:+ rest)
  = Some (make_number
            (if negative then - Z.of_N (digits_value (a +:+ b))
             else Z.of_N (digits_value (a +:+ b)))
            (default 0 x - Z.of_nat (String.length b)), rest).
Proof.
  intros Ha Hok Hb Hrest.
  pose proof (delimited_no_digit rest Hrest) as Hstop.
  assert (read_exponent
            (match x with
             | Some e => exponent_text e
             | None => EmptyString
             end +:+ rest) = Some (default 0 x, rest)) as Hexp.
  { destruct x as [e|]; cbn [default String.append].
    - unfold exponent_text, read_exponent. cbn [String.append].
      cbn [Ascii.eqb Bool.eqb orb]. cbn iota.
      destruct (Z.ltb_spec e 0) as [Hneg|Hpos]; cbn [Ascii.eqb Bool.eqb];
        cbn iota; rewrite (read_digits_app _ _ (digits_text_digits _) Hstop);
        destruct (digits_text_head (Z.abs_N e)) as (c & r & Htext & _);
        rewrite Htext, <- Htext, digits_value_text; do 2 f_equal;
        unfold id; lia.
    - destruct rest as [|c rest]; [done|].
      unfold delimited, continues_number in Hrest. cbn.
      destruct (Ascii.eqb c "e"), (Ascii.eqb c "E"); try done;
        by rewrite ?orb_true_r in Hrest. }
  unfold parse_unsigned.
  destruct b as [|cb b].
  - cbn [String.append]. rewrite append_nil_r.
    rewrite (read_digits_app a); [|done|].
    + rewrite Hok.
      assert (read_fraction
                (match x with
                 | Some e => exponent_text e
                 | None => EmptyString
                 end +:+ rest)
              = Some (EmptyString,
                      match x with
                      | Some e => exponent_text e
                      | None => EmptyString
                      end +:+ rest)) as ->.
      { destruct x as [e|]; [reflexivity|]. cbn [String.append].
        destruct rest as [|c rest]; [done|].
        unfold delimited, continues_number in Hrest. cbn.
        destruct (Ascii.eqb c "."); [|done].
        by rewrite ?orb_true_r in Hrest. }
      cbn [mbind option_bind]. rewrite Hexp. cbn [mbind option_bind].
      by rewrite append_nil_r.
    + destruct x as [e|]; [done|]. exact Hstop.
  - cbn [String.append].
    rewrite (read_digits_app a); [|done|done]. rewrite Hok.
    unfold read_fraction. cbn [Ascii.eqb Bool.eqb]. cbn iota.
    change (String cb (b +:+ ?t)) with (String cb b +:+ t).
    rewrite (read_digits_app (String cb b)); [|done|].
    + cbn [mbind option_bind]. rewrite Hexp. reflexivity.
    + destruct x as [e|]; [done|]. exact Hstop.
Qed.

Lemma make_number_scaled (m x : Z) :
  m ≠ 0 → 0 ≤ x → make_number m x = JNum (m * 10 ^ x).
Proof.
  intros Hm Hx. unfold make_number.
  destruct (Z.eqb_spec m 0) as [?|_]; [done|].
  by destruct (Z.leb_spec 0 x) as [_|?]; [|lia].
Qed.

Lemma is_digit_spec (c : ascii) :
  is_digit c = true →
  is_ws c = false ∧ Ascii.eqb c "-" = false ∧ Ascii.eqb c "[" = false
  ∧ Ascii.eqb c "{" = false ∧ Ascii.eqb c dquote = false
  ∧ Ascii.eqb c "t" = false ∧ Ascii.eqb c "f" = false
  ∧ Ascii.eqb c "n" = false ∧ Ascii.eqb c "]" = false
  ∧ Ascii.eqb c "}" = false.
Proof.
  destruct c as [[] [] [] [] [] [] [] []]; cbn; intros; try discriminate;
    repeat split.
Qed.

(** The text of a natural number is read back. *)
Lemma parse_natural_text (negative : bool) (m : N) (rest : string) :
  delimited rest →
  parse_unsigned negative (natural_text m +:+ rest)
  = Some (JNum (if negative then - Z.of_N m else Z.of_N m), rest).
Proof.
  intros Hrest. unfold natural_text.
  destruct (Nat.leb_spec (String.length (digits_text m)) 21) as [_|Hlong].
  - pose proof (parse_unsigned_literal negative (digits_text m) EmptyString
                  None rest (digits_text_digits m)
                  (int_part_ok_digits_text m) eq_refl Hrest) as Hread.
    cbn [String.append default from_option String.length] in Hread.
    rewrite Hread, append_nil_r, digits_value_text.
    by rewrite make_number_integer.
  - assert (m ≠ 0%N) as Hm by (intros ->; cbn in Hlong; lia).
    destruct (digits_text_head m) as (c & r & Htext & Hdigit & Hc).
    specialize (Hc Hm).
    destruct (strip_zeros_app (digits_text m)) as [j Hj].
    pose proof (digits_text_digits m) as Hall.
    pose proof (digits_value_text m) as Hvalue.
    pose proof (f_equal String.length Hj) as Hlen.
    rewrite Hj in Hall, Hvalue. rewrite length_append, length_zeros in Hlen.
    rewrite Hlen. clear Hlong Hlen Hj.
    rewrite Htext in *. clear Htext.
    destruct (strip_zeros_head c r Hc) as [kept Hkept].
    rewrite Hkept in *. clear Hkept.
    rewrite all_digits_app in Hall. apply andb_prop in Hall as [Hall _].
    cbn [all_digits] in Hall. apply andb_prop in Hall as [_ Hkept].
    unfold digits_value in Hvalue.
    rewrite digits_value_from_app, digits_value_from_zeros in Hvalue.
    pose proof (parse_unsigned_literal negative (String c EmptyString) kept
                  (Some (Z.of_nat (String.length (String c kept) + j) - 1))
                  rest) as Hread.
    cbn [all_digits int_part_ok String.append default from_option] in Hread.
    rewrite Hdigit in Hread. specialize (Hread eq_refl eq_refl Hkept Hrest).
    assert (scientific (String c kept)
              (Z.of_nat (String.length (String c kept) + j)) +:+ rest
            = String c
                (match kept with
                 | EmptyString => EmptyString
                 | String _ _ => String "." kept
                 end
                 +:+ exponent_text
                       (Z.of_nat (String.length (String c kept) + j) - 1)
                 +:+ rest)) as ->.
    { unfold scientific. destruct kept; cbn [String.append]; [done|].
      by rewrite append_assoc. }
    rewrite Hread. f_equal. f_equal.
    fold (digits_value (String c kept)) in *.
    assert (digits_value (String c kept) ≠ 0%N) as Hnz by (intros Hz; rewrite Hz in Hvalue; lia).
    unfold id. cbn [String.length].
    replace (Z.of_nat (S (String.length kept) + j) - 1
             - Z.of_nat (String.length kept)) with (Z.of_nat j) by lia.
    rewrite make_number_scaled; [|destruct negative; lia|lia].
    f_equal. rewrite <- Hvalue, N2Z.inj_mul, N2Z.inj_pow, nat_N_Z.
    cbn [Z.of_N]. destruct negative; lia.
Qed.

(** The text of a fraction is read back. *)
Lemma parse_fraction_text (negative : bool) (m : N) (p : positive)
    (rest : string) :
  (m mod 10 =? 0)%N = false →
  delimited rest →
  parse_unsigned negative (fraction_text m p +:+ rest)
  = Some (JDec (if negative then - Z.of_N m else Z.of_N m) p, rest).
Proof.
  intros Hmod Hrest.
  assert (m ≠ 0%N) as Hm by (by intros ->).
  rewrite <- (make_number_fraction _ p (signed_mod_10 negative m Hmod)).
  unfold fraction_text.
  destruct (digits_text_head m) as (c & r & Htext & Hdigit & Hc).
  specialize (Hc Hm).
  pose proof (digits_text_digits m) as Hall.
  pose proof (digits_value_text m) as Hvalue.
  rewrite Htext in *. clear Htext.
  remember (Z.of_nat (String.length (String c r)) - Z.pos p) as n eqn:Hn.
  cbn [String.length] in Hn.
  destruct ((0 <? n) && (n <=? 21)) eqn:Hpoint;
    [|destruct ((-6 <? n) && (n <=? 0)) eqn:Hzeros].
  - apply andb_prop in Hpoint as [Hpos%Z.ltb_lt _].
    pose proof (string_take_drop (Z.to_nat n) (String c r)) as Hsplit.
    pose proof (length_string_drop (Z.to_nat n) (String c r)) as Hlen.
    cbn [String.length] in Hlen.
    destruct (string_drop (Z.to_nat n) (String c r)) as [|cb b] eqn:Hdrop;
      [cbn in Hlen; lia|].
    rewrite <- Hsplit, all_digits_app in Hall.
    apply andb_prop in Hall as [Ha Hb].
    pose proof (parse_unsigned_literal negative
                  (string_take (Z.to_nat n) (String c r))
                  (String cb b) None rest Ha) as Hread.
    cbn [String.append default from_option] in Hread.
    rewrite append_assoc. cbn [String.append].
    rewrite Hread; [|clear Hread|done|done].
    + rewrite Hsplit, Hvalue. do 3 f_equal. unfold id. lia.
    + destruct (Z.to_nat n) as [|n'] eqn:Hn'; [lia|].
      rewrite string_take_head. cbn [int_part_ok].
      destruct (string_take n' r); [done|]. by rewrite Hc.
  - apply andb_prop in Hzeros as [Hlow%Z.ltb_lt Hhigh%Z.leb_le].
    pose proof (parse_unsigned_literal negative "0"
                  (zeros (Z.to_nat (- n)) +:+ String c r) None rest
                  eq_refl eq_refl) as Hread.
    rewrite all_digits_app, all_digits_zeros, Hall in Hread.
    specialize (Hread eq_refl Hrest).
    assert (∃ cb b, zeros (Z.to_nat (- n)) +:+ String c r = String cb b)
      as (cb & b & Hb).
    { destruct (zeros (Z.to_nat (- n))); by eexists _, _. }
    rewrite Hb in Hread at 1. cbn [String.append default from_option] in Hread.
    cbn [String.append].
    rewrite Hread. do 2 f_equal. f_equal.
    + unfold digits_value in *. cbn [String.append digits_value_from].
      rewrite digits_value_from_app, digits_value_from_zeros.
      change (10 * 0 + digit_value "0")%N with 0%N. rewrite N.mul_0_l.
      by rewrite Hvalue.
    + unfold id. rewrite length_append, length_zeros.
      cbn [String.length]. lia.
  - destruct r as [|cr r].
    + pose proof (parse_unsigned_literal negative (String c EmptyString)
                    EmptyString (Some (n - 1)) rest) as Hread.
      cbn [all_digits int_part_ok String.append default from_option] in Hread.
      rewrite Hdigit in Hread. specialize (Hread eq_refl eq_refl eq_refl Hrest).
      unfold scientific. cbn [String.append].
      rewrite Hread, Hvalue. do 3 f_equal. unfold id.
      cbn [String.length] in *. lia.
    + pose proof (parse_unsigned_literal negative (String c EmptyString)
                    (String cr r) (Some (n - 1)) rest) as Hread.
      cbn [all_digits int_part_ok String.append default from_option] in Hread.
      rewrite Hdigit in Hread. cbn [all_digits] in Hall.
      apply andb_prop in Hall as [_ Hall].
      specialize (Hread eq_refl eq_refl Hall Hrest).
      unfold scientific. cbn [String.append].
      rewrite append_assoc. cbn [String.append] in Hread |- *.
      rewrite Hread, Hvalue. do 3 f_equal. unfold id.
      cbn [String.length] in *. lia.
Qed.

Lemma natural_text_head (m : N) :
  ∃ c r, natural_text m = String c r ∧ is_digit c = true.
Proof.
  unfold natural_text.
  destruct (digits_text_head m) as (c & r & Htext & Hdigit & Hc).
  destruct (Nat.leb_spec (String.length (digits_text m)) 21) as [_|Hlong].
  - by exists c, r.
  - assert (m ≠ 0%N) as Hm by (intros ->; cbn in Hlong; lia).
    rewrite Htext.
    destruct (strip_zeros_head c r (Hc Hm)) as [kept ->].
    unfold scientific. destruct kept; by eexists _, _.
Qed.

Lemma fraction_text_head (m : N) (p : positive) :
  ∃ c r, fraction_text m p = String c r ∧ is_digit c = true.
Proof.
  unfold fraction_text.
  destruct (digits_text_head m) as (c & r & -> & Hdigit & _).
  remember (Z.of_nat (String.length (String c r)) - Z.pos p) as n.
  destruct ((0 <? n) && (n <=? 21)) eqn:Hpoint;
    [|destruct ((-6 <? n) && (n <=? 0))].
  - apply andb_prop in Hpoint as [Hpos%Z.ltb_lt _].
    destruct (Z.to_nat n) as [|n'] eqn:Hn'; [lia|].
    rewrite string_take_head. by eexists _, _.
  - by eexists _, _.
  - unfold scientific. destruct r; by eexists _, _.
Qed.

Lemma abs_mod_10 (m : Z) :
  (m mod 10 =? 0) = false → (Z.abs_N m mod 10 =? 0)%N = false.
Proof.
  intros Hm%Z.eqb_neq. apply N.eqb_neq. intros Hz. apply Hm.
  apply Z.mod_divide; [lia|]. apply Z.divide_abs_r.
  apply Z.mod_divide; [lia|].
  rewrite <- N2Z.inj_abs_N.
  change 10 with (Z.of_N 10). rewrite <- N2Z.inj_mod, Hz. reflexivity.
Qed.

(** A number is read where its text begins. *)
Lemma parse_number_integer (n : Z) (rest : string) :
  delimited rest →
  parse_number (number_text n +:+ rest) = Some (JNum n, rest)
  ∧ ∃ c r, number_text n = String c r
           ∧ (Ascii.eqb c "-" = true ∨ is_digit c = true).
Proof.
  intros Hrest. unfold number_text.
  destruct (Z.ltb_spec n 0) as [Hneg|Hpos].
  - split; [|eexists _, _; split; [reflexivity | by left]].
    cbn [String.append parse_number Ascii.eqb Bool.eqb]. cbn iota.
    rewrite (parse_natural_text true _ rest Hrest). do 3 f_equal. lia.
  - destruct (natural_text_head (Z.to_N n)) as (c & r & Htext & Hdigit).
    split; [|exists c, r; split; [done | by right]].
    pose proof (parse_natural_text false (Z.to_N n) rest Hrest) as Hread.
    rewrite Htext in *. cbn [String.append parse_number] in *.
    destruct (is_digit_spec c Hdigit) as (_ & -> & _).
    rewrite Hread. do 3 f_equal. lia.
Qed.

Lemma parse_number_decimal (m : Z) (p : positive) (rest : string) :
  (m mod 10 =? 0) = false →
  delimited rest →
  parse_number (decimal_text m p +:+ rest) = Some (JDec m p, rest)
  ∧ ∃ c r, decimal_text m p = String c r
           ∧ (Ascii.eqb c "-" = true ∨ is_digit c = true).
Proof.
  intros Hm%abs_mod_10 Hrest. unfold decimal_text.
  destruct (Z.ltb_spec m 0) as [Hneg|Hpos].
  - split; [|eexists _, _; split; [reflexivity | by left]].
    cbn [String.append parse_number Ascii.eqb Bool.eqb]. cbn iota.
    replace (Z.abs_N m) with (Z.to_N (- m)) in Hm by lia.
    rewrite (parse_fraction_text true _ p rest Hm Hrest). do 3 f_equal. lia.
  - replace (Z.abs_N m) with (Z.to_N m) in Hm by lia.
    destruct (fraction_text_head (Z.to_N m) p) as (c & r & Htext & Hdigit).
    split; [|exists c, r; split; [done | by right]].
    pose proof (parse_fraction_text false (Z.to_N m) p rest Hm Hrest) as Hread.
    rewrite Htext in *. cbn [String.append parse_number] in *.
    destruct (is_digit_spec c Hdigit) as (_ & -> & _).
    rewrite Hread. do 3 f_equal. lia.
Qed.

Lemma skip_ws_opens (c : ascii) (r : string) :
  is_ws c = false → skip_ws (String c r) = String c r.
Proof. intros Hc. cbn. by rewrite Hc. Qed.

(** The reader of values on a text that begins a number literal. *)
Lemma parse_value_literal (f : nat) (c : ascii) (r : string) :
  Ascii.eqb c "-" = true ∨ is_digit c = true →
  parse_value (S f) (String c r) = parse_number (String c r).
Proof.
  intros [Hc | Hc].
  - apply Ascii.eqb_eq in Hc as ->. reflexivity.
  - destruct (is_digit_spec c Hc) as (Hws & _ & H1 & H2 & H3 & H4 & H5 & H6 & _).
    cbn [parse_value]. by rewrite (skip_ws_opens _ _ Hws), H1, H2, H3, H4, H5, H6.
Qed.

(** ** String literals *)

Lemma parse_string_escape_char (c : ascii) (tail : string) :
  parse_string_body (escape_char c +:+ tail)
  = '(str, r) ← parse_string_body tail; Some (String c str, r).
Proof.
  destruct c as [[] [] [] [] [] [] [] []]; reflexivity.
Qed.

Lemma parse_string_escape (s rest : string) :
  parse_string_body (escape s +:+ String dquote rest) = Some (s, rest).
Proof.
  induction s as [|c s IH]; [reflexivity|].
  cbn [escape]. rewrite append_assoc, parse_string_escape_char, IH.
  reflexivity.
Qed.

Lemma parse_quote (s rest : string) :
  ∃ body, quote s +:+ rest = String dquote body
          ∧ parse_string_body body = Some (s, rest).
Proof.
  exists (escape s +:+ String dquote rest). split.
  - unfold quote. cbn [String.append]. f_equal. by rewrite append_assoc.
  - apply parse_string_escape.
Qed.

(** ** Documents *)

(** Induction over documents, through the lists of arrays and objects. *)
Lemma json_nested_ind (P : json → Prop) :
  P JNull →
  (∀ b, P (JBool b)) →
  (∀ n, P (JNum n)) →
  (∀ m p, P (JDec m p)) →
  (∀ s, P (JStr s)) →
  (∀ items, Forall P items → P (JArr items)) →
  (∀ fields, Forall (λ kv, P kv.2) fields → P (JObj fields)) →
  ∀ v, P v.
Proof.
  intros Hnull Hbool Hnum Hdec Hstr Harr Hobj.
  fix IH 1. intros [ | b | n | m p | s | items | fields ].
  - exact Hnull.
  - apply Hbool.
  - apply Hnum.
  - apply Hdec.
  - apply Hstr.
  - apply Harr. induction items as [|x items IHitems]; constructor.
    + apply IH.
    + exact IHitems.
  - apply Hobj. induction fields as [|[k x] fields IHfields]; constructor.
    + apply IH.
    + exact IHfields.
Qed.

(** *** The properties of an object *)

Lemma obj_set_fresh (k : string) (v : json)
    (fields : list (string * json)) :
  k ∉ List.map fst fields → obj_set k v fields = fields ++ [(k, v)].
Proof.
  induction fields as [|[k' w] fields IH]; cbn; [done|].
  intros Hk. destruct (String.eqb_spec k' k) as [->|_].
  - destruct Hk. by left.
  - rewrite IH; [done|]. intros Hin. apply Hk. by right.
Qed.

Lemma created_fresh (members acc : list (string * json)) :
  NoDup (List.map fst (acc ++ members)) →
  fold_left (λ fields kv, obj_set kv.1 kv.2 fields) members acc = acc ++ members.
Proof.
  revert acc. induction members as [|[k v] members IH]; intros acc Hnd; cbn.
  - by rewrite app_nil_r.
  - rewrite obj_set_fresh.
    + rewrite IH; rewrite <- app_assoc; done.
    + rewrite map_app in Hnd. apply NoDup_app in Hnd as (_ & Hdisj & Hm).
      intros Hin. apply (Hdisj k Hin). cbn. by left.
Qed.

Lemma named_only (fields : list (string * json)) :
  forallb (λ k, negb (is_index k)) (List.map fst fields) = true →
  index_properties fields = [] ∧ named_properties fields = fields.
Proof.
  induction fields as [|kv fields IH]; cbn; [done|].
  unfold is_index at 1.
  destruct (array_index kv.1); [done|]. cbn.
  intros [-> ->]%IH. done.
Qed.

Lemma index_properties_ordered (fields : list (string * json)) :
  property_order (List.map fst fields) = true →
  own_properties fields = fields
  ∧ match fields with
    | kv :: rest =>
        match array_index kv.1 with
        | Some _ => index_properties fields = kv :: index_properties rest
        | None => index_properties fields = []
        end
    | [] => True
    end.
Proof.
  unfold own_properties.
  induction fields as [|kv fields IH]; [done|].
  cbn [List.map property_order index_properties named_properties].
  destruct (array_index kv.1) as [i|] eqn:Hkv.
  - intros [Hnext Hrest]%andb_prop.
    destruct (IH Hrest) as [Hown Hhead].
    assert (insert_index i kv (index_properties fields)
            = kv :: index_properties fields) as ->.
    { destruct fields as [|x fields]; [done|].
      cbn [List.map] in Hnext.
      destruct (array_index x.1) as [j|] eqn:Hx.
      - rewrite Hhead. cbn [insert_index]. by rewrite Hx, Hnext.
      - by rewrite Hhead. }
    split; [|done]. cbn [app]. by rewrite Hown.
  - intros [Hindex Hnamed]%named_only. cbn. by rewrite Hindex, Hnamed.
Qed.

(** The member list of a well-formed object denotes that object. *)
Lemma object_of_proper (members : list (string * json)) :
  NoDup (List.map fst members) →
  property_order (List.map fst members) = true →
  object_of members = members.
Proof.
  intros Hnd Horder. unfold object_of.
  rewrite (created_fresh members []) by done.
  by apply index_properties_ordered.
Qed.

(** *** Printing and reading back *)

Lemma stringify_head (v : json) :
  ∃ c r, JSON_stringify v = String c r ∧ opens_value c.
Proof.
  assert (∀ c, Ascii.eqb c "-" = true ∨ is_digit c = true → opens_value c)
    as Hopens.
  { intros c [Hc | Hc].
    - apply Ascii.eqb_eq in Hc as ->. by repeat split.
    - destruct (is_digit_spec c Hc) as (? & _ & _ & _ & _ & _ & _ & _ & ? & ?).
      by repeat split. }
  destruct v as [ | [] | n | m p | s | items | fields ];
    try (eexists _, _; split; [reflexivity | by repeat split]).
  - destruct (natural_text_head (Z.to_N n)) as (c & r & Htext & Hdigit).
    cbn [JSON_stringify]. unfold number_text.
    destruct (n <? 0); [eexists _, _; split; [reflexivity | by repeat split]|].
    exists c, r. split; [done|]. apply Hopens. by right.
  - destruct (fraction_text_head (Z.to_N m) p) as (c & r & Htext & Hdigit).
    cbn [JSON_stringify]. unfold decimal_text.
    destruct (m <? 0); [eexists _, _; split; [reflexivity | by repeat split]|].
    exists c, r. split; [done|]. apply Hopens. by right.
Qed.

(** The text of a document has no byte order mark. *)
Lemma utf8_decode_stringify (v : json) :
  utf8_decode (JSON_stringify v) = JSON_stringify v.
Proof.
  assert (∀ c r, Ascii.eqb c "-" = true ∨ is_digit c = true →
                 utf8_decode (String c r) = String c r) as Hnumber.
  { intros c r [Hc | Hc].
    - by apply Ascii.eqb_eq in Hc as ->.
    - by destruct c as [[] [] [] [] [] [] [] []]. }
  destruct v as [ | [] | n | m p | s | items | fields ]; try reflexivity.
  - destruct (parse_number_integer n EmptyString I) as (_ & c & r & Htext & Hc).
    cbn [JSON_stringify]. rewrite Htext. by apply Hnumber.
  - cbn [JSON_stringify]. unfold decimal_text.
    destruct (fraction_text_head (Z.to_N m) p) as (c & r & Htext & Hdigit).
    destruct (m <? 0); [reflexivity|]. rewrite Htext. apply Hnumber. by right.
Qed.

Lemma stringify_length_pos (v : json) : (1 ≤ String.length (JSON_stringify v))%nat.
Proof.
  destruct (stringify_head v) as (c & r & -> & _). cbn. lia.
Qed.

Lemma concat_cons (sep x y : string) (l : list string) :
  String.concat sep (x :: y :: l) = x +:+ sep +:+ String.concat sep (y :: l).
Proof. reflexivity. Qed.

Lemma parse_elements_print (items : list json) :
  items ≠ [] →
  Forall reads_back items →
  ∀ fuel rest,
    (S (String.length (String.concat "," (List.map JSON_stringify items))) ≤ fuel)%nat →
    parse_elements fuel
      (String.concat "," (List.map JSON_stringify items) +:+ String "]" rest)
    = Some (items, rest).
Proof.
  induction items as [|x items IH]; [done|].
  intros _ Hall fuel rest Hfuel.
  apply Forall_cons in Hall as [Hx Hitems].
  destruct fuel as [|f]; [lia|].
  destruct items as [|y items].
  - change (String.concat "," (List.map JSON_stringify [x]))
      with (JSON_stringify x) in *.
    cbn [parse_elements].
    rewrite Hx; [reflexivity | lia | reflexivity].
  - change (List.map JSON_stringify (x :: y :: items))
      with (JSON_stringify x :: JSON_stringify y :: List.map JSON_stringify items)
      in *.
    rewrite concat_cons in *.
    rewrite !length_append in Hfuel. cbn [String.length] in Hfuel.
    rewrite !append_assoc. cbn [String.append parse_elements].
    rewrite Hx; [| lia | reflexivity].
    cbn [mbind option_bind].
    rewrite (skip_ws_opens "," _ eq_refl). cbn [Ascii.eqb Bool.eqb]. cbn iota.
    change (JSON_stringify y :: List.map JSON_stringify items)
      with (List.map JSON_stringify (y :: items)) in *.
    rewrite (IH ltac:(done) Hitems f rest); [reflexivity | lia].
Qed.

Lemma parse_member_print (f : nat) (k : string) (v : json) (tail : string) :
  reads_back v →
  (String.length (JSON_stringify v) ≤ f)%nat →
  delimited tail →
  parse_members (S f) (member_text (k, v) +:+ tail)
  = match skip_ws tail with
    | EmptyString => None
    | String c r =>
        if Ascii.eqb c "," then
          '(kvs, r') ← parse_members f r; Some ((k, v) :: kvs, r')
        else if Ascii.eqb c "}" then Some ([(k, v)], r)
        else None
    end.
Proof.
  intros Hv Hf Htail.
  unfold member_text. cbn [fst snd]. rewrite !append_assoc.
  destruct (parse_quote k (":" +:+ JSON_stringify v +:+ tail))
    as (body & -> & Hbody).
  cbn [parse_members].
  rewrite (skip_ws_opens dquote _ eq_refl), Ascii.eqb_refl, Hbody.
  cbn [mbind option_bind String.append].
  rewrite (skip_ws_opens ":" _ eq_refl), Ascii.eqb_refl.
  by rewrite Hv.
Qed.

Lemma parse_members_print (fields : list (string * json)) :
  fields ≠ [] →
  Forall (λ kv, reads_back kv.2) fields →
  ∀ fuel rest,
    (S (String.length (String.concat "," (List.map member_text fields))) ≤ fuel)%nat →
    parse_members fuel
      (String.concat "," (List.map member_text fields) +:+ String "}" rest)
    = Some (fields, rest).
Proof.
  induction fields as [|[k v] fields IH]; [done|].
  intros _ Hall fuel rest Hfuel.
  apply Forall_cons in Hall as [Hv Hfields]. cbn [snd] in Hv.
  destruct fuel as [|f]; [lia|].
  destruct fields as [|kv fields].
  - change (String.concat "," (List.map member_text [(k, v)]))
      with (member_text (k, v)) in *.
    unfold member_text in Hfuel. cbn [fst snd] in Hfuel.
    rewrite !length_append in Hfuel.
    rewrite parse_member_print; [| done | lia | reflexivity].
    by rewrite (skip_ws_opens "}" _ eq_refl).
  - change (List.map member_text ((k, v) :: kv :: fields))
      with (member_text (k, v) :: List.map member_text (kv :: fields)) in *.
    change (List.map member_text (kv :: fields))
      with (member_text kv :: List.map member_text fields) in *.
    rewrite concat_cons in *.
    change (member_text kv :: List.map member_text fields)
      with (List.map member_text (kv :: fields)) in *.
    unfold member_text at 1 in Hfuel. cbn [fst snd] in Hfuel.
    rewrite !length_append in Hfuel. cbn [String.length] in Hfuel.
    rewrite !append_assoc. cbn [String.append].
    rewrite parse_member_print; [| done | lia | reflexivity].
    rewrite (skip_ws_opens "," _ eq_refl), Ascii.eqb_refl.
    rewrite (IH ltac:(done) Hfields f rest); [reflexivity | lia].
Qed.

Lemma Forall_reads_back {A} (f : A → json) (l : list A) :
  Forall (λ x, well_formed (f x) = true → reads_back (f x)) l →
  forallb (λ x, well_formed (f x)) l = true →
  Forall (λ x, reads_back (f x)) l.
Proof.
  induction 1 as [|x l Hx _ IH]; cbn; [constructor|].
  intros [Hu Hl]%andb_prop. constructor; auto.
Qed.

Lemma stringify_reads_back (v : json) : well_formed v = true → reads_back v.
Proof.
  induction v as [ | b | n | m p | s | items IH | fields IH ]
    using json_nested_ind;
    intros Hu fuel rest Hfuel Hrest;
    (destruct fuel as [|f];
     [match type of Hfuel with
      | (String.length (JSON_stringify ?w) ≤ _)%nat =>
          pose proof (stringify_length_pos w); lia
      end|]).
  - reflexivity.
  - by destruct b.
  - cbn [JSON_stringify].
    destruct (parse_number_integer n rest Hrest) as (Hread & c & r & Htext & Hc).
    rewrite Htext in *. cbn [String.append] in *.
    by rewrite (parse_value_literal f c _ Hc).
  - cbn [JSON_stringify well_formed] in *. apply negb_true_iff in Hu.
    destruct (parse_number_decimal m p rest Hu Hrest)
      as (Hread & c & r & Htext & Hc).
    rewrite Htext in *. cbn [String.append] in *.
    by rewrite (parse_value_literal f c _ Hc).
  - cbn [JSON_stringify].
    destruct (parse_quote s rest) as (body & -> & Hbody).
    cbn [parse_value]. rewrite (skip_ws_opens dquote _ eq_refl).
    cbn [Ascii.eqb Bool.eqb dquote]. cbn iota. by rewrite Hbody.
  - cbn [JSON_stringify well_formed] in *.
    apply (Forall_reads_back id) in IH; [|done].
    rewrite !append_assoc. cbn [String.append parse_value].
    rewrite (skip_ws_opens "[" _ eq_refl), Ascii.eqb_refl.
    destruct items as [|x items]; [reflexivity|].
    destruct (stringify_head x) as (c & r & Hx & Hws & Hclose & _).
    assert (∃ r', String.concat "," (List.map JSON_stringify (x :: items))
                    +:+ String "]" rest = String c r') as [r' Htext].
    { destruct items; [cbn; rewrite Hx; by eexists|].
      change (List.map JSON_stringify (x :: j :: items))
        with (JSON_stringify x :: List.map JSON_stringify (j :: items)).
      cbn [List.map]. rewrite concat_cons, Hx. by eexists. }
    rewrite Htext at 1. rewrite (skip_ws_opens _ _ Hws), Hclose.
    rewrite !length_append in Hfuel. cbn [String.length] in Hfuel.
    rewrite parse_elements_print; [reflexivity | done | done | lia].
  - cbn [JSON_stringify well_formed] in *.
    apply andb_prop in Hu as [[Hnd%bool_decide_eq_true Horder]%andb_prop Hu].
    apply (Forall_reads_back snd) in IH; [|done].
    change (λ kv : string * json, quote kv.1 +:+ ":" +:+ JSON_stringify kv.2)
      with member_text in *.
    rewrite !append_assoc. cbn [String.append parse_value].
    rewrite (skip_ws_opens "{" _ eq_refl).
    cbn [Ascii.eqb Bool.eqb]. cbn iota.
    destruct fields as [|[k x] fields]; [reflexivity|].
    assert (∃ r', String.concat "," (List.map member_text ((k, x) :: fields))
                    +:+ String "}" rest = String dquote r') as [r' Htext].
    { destruct fields; [cbn; by eexists|].
      change (List.map member_text ((k, x) :: p :: fields))
        with (member_text (k, x) :: List.map member_text (p :: fields)).
      cbn [List.map]. rewrite concat_cons. by eexists. }
    rewrite Htext at 1. rewrite (skip_ws_opens dquote _ eq_refl).
    cbn [Ascii.eqb Bool.eqb dquote]. cbn iota.
    rewrite !length_append in Hfuel. cbn [String.length] in Hfuel.
    rewrite parse_members_print; [| done | done | lia].
    cbn [mbind option_bind]. by rewrite object_of_proper.
Qed.

(** [JSON.parse(JSON.stringify(v))] is [v]. *)
Lemma JSON_parse_stringify (v : json) :
  well_formed v = true → JSON_parse (JSON_stringify v) = Some v.
Proof.
  intros Hu. unfold JSON_parse.
  rewrite <- (append_nil_r (JSON_stringify v)) at 2.
  rewrite (stringify_reads_back v Hu); [reflexivity | lia | exact I].
Qed.

(** ** The fuel of the reader

    The reader never stops for lack of fuel: what it reads with any
    fuel, it reads with the fuel that [JSON.parse] gives it. *)

Lemma skip_ws_length (s : string) :
  (String.length (skip_ws s) ≤ String.length s)%nat.
Proof.
  induction s as [|c s IH]; cbn; [lia|]. destruct (is_ws c); cbn; lia.
Qed.

Lemma read_digits_length (s : string) :
  String.length s
  = (String.length (read_digits s).1 + String.length (read_digits s).2)%nat.
Proof.
  induction s as [|c s IH]; cbn; [done|].
  destruct (is_digit c); [|done].
  destruct (read_digits s) as [ds r]. cbn in *. lia.
Qed.

Lemma parse_unsigned_length (negative : bool) (s : string) (v : json)
    (r : string) :
  parse_unsigned negative s = Some (v, r) →
  (String.length r < String.length s)%nat.
Proof.
  unfold parse_unsigned.
  pose proof (read_digits_length s) as Hint.
  destruct (read_digits s) as [ip r1]. cbn [fst snd] in Hint.
  destruct (int_part_ok ip) eqn:Hok; [|done].
  assert (1 ≤ String.length ip)%nat by (destruct ip; [done | cbn; lia]).
  assert (∀ fp r2, read_fraction r1 = Some (fp, r2) →
                   String.length r2 ≤ String.length r1)%nat as Hfrac.
  { intros fp r2. unfold read_fraction. destruct r1 as [|c r1]; [by intros [= _ <-]|].
    destruct (Ascii.eqb c "."); [|by intros [= _ <-]].
    pose proof (read_digits_length r1) as Hlen.
    destruct (read_digits r1) as [ds r']. cbn [fst snd] in Hlen.
    destruct ds; [done|]. intros [= _ <-]. cbn in *. lia. }
  assert (∀ r2 x r3, read_exponent r2 = Some (x, r3) →
                     String.length r3 ≤ String.length r2)%nat as Hexp.
  { intros r2 x r3. unfold read_exponent.
    destruct r2 as [|c r2]; [by intros [= _ <-]|].
    destruct (Ascii.eqb c "e" || Ascii.eqb c "E"); [|by intros [= _ <-]].
    assert (∃ negative s1,
              match r2 with
              | String sign r' =>
                  if Ascii.eqb sign "-" then (true, r')
                  else if Ascii.eqb sign "+" then (false, r')
                  else (false, r2)
              | EmptyString => (false, r2)
              end = (negative, s1)
              ∧ String.length s1 ≤ String.length r2)%nat as (n' & s1 & -> & Hs1).
    { destruct r2 as [|sign r']; [by eexists _, _|].
      destruct (Ascii.eqb sign "-"); [eexists _, _; split; [done|cbn; lia]|].
      destruct (Ascii.eqb sign "+"); eexists _, _; split; try done; cbn; lia. }
    pose proof (read_digits_length s1) as Hlen.
    destruct (read_digits s1) as [ds r']. cbn [fst snd] in Hlen.
    destruct ds; [done|]. intros [= _ <-]. cbn in *. lia. }
  destruct (read_fraction r1) as [[fp r2]|]; [|done]. cbn.
  specialize (Hfrac fp r2 eq_refl). specialize (Hexp r2).
  destruct (read_exponent r2) as [[x r3]|]; [|done]. cbn.
  intros [= _ <-]. specialize (Hexp x r3 eq_refl). lia.
Qed.

Lemma parse_number_length (s : string) (v : json) (r : string) :
  parse_number s = Some (v, r) → (String.length r < String.length s)%nat.
Proof.
  unfold parse_number. destruct s as [|c s]; [done|].
  destruct (Ascii.eqb c "-"); intros Hparse%parse_unsigned_length; cbn in *; lia.
Qed.

Lemma strip_prefix_length (lit s r : string) :
  strip_prefix lit s = Some r → (String.length r ≤ String.length s)%nat.
Proof.
  revert s. induction lit as [|a lit IH]; intros [|b s]; cbn; try done.
  - by intros [= <-].
  - by intros [= <-].
  - destruct (Ascii.eqb a b); [|done]. intros Hs%IH. lia.
Qed.

Lemma parse_string_body_length (n : nat) :
  ∀ s str r,
    (String.length s ≤ n)%nat →
    parse_string_body s = Some (str, r) →
    (String.length r < String.length s)%nat.
Proof.
  induction n as [|n IH]; intros s str r Hn.
  { destruct s; [done | cbn in Hn; lia]. }
  destruct s as [|c rest]; [done|]. cbn [parse_string_body].
  assert (∀ tail (k : nat) (f : string → string),
            (String.length tail + k ≤ String.length rest)%nat →
            ('(str', r') ← parse_string_body tail; Some (f str', r'))
            = Some (str, r) →
            (String.length r < String.length (String c rest))%nat) as Hstep.
  { intros tail k f Htail Hbody.
    destruct (parse_string_body tail) as [[str' r']|] eqn:Hrec; [|done].
    cbn in Hbody. injection Hbody as _ <-.
    apply IH in Hrec; cbn in *; lia. }
  destruct (Ascii.eqb c dquote); [intros [= _ <-]; cbn; lia|].
  destruct (Ascii.eqb c backslash).
  - destruct rest as [|e rest1]; [done|].
    destruct (Ascii.eqb e "u").
    + destruct rest1 as [|h1 [|h2 [|h3 [|h4 rest2]]]]; try done.
      destruct (code_unit h1 h2 h3 h4) as [high|]; [|done]. cbn.
      destruct (is_high_surrogate high).
      * destruct rest2 as [|b [|u [|g1 [|g2 [|g3 [|g4 rest3]]]]]];
          try (apply (Hstep _ 5%nat); cbn; lia).
        destruct (low_surrogate b u g1 g2 g3 g4).
        -- apply (Hstep _ 11%nat). cbn. lia.
        -- apply (Hstep _ 5%nat). cbn. lia.
      * apply (Hstep _ 5%nat). cbn. lia.
    + destruct (unescape e) as [x|]; [|done]. cbn.
      apply (Hstep _ 1%nat). cbn. lia.
  - destruct (N_of_ascii c <? 32)%N; [done|].
    apply (Hstep _ 0%nat). lia.
Qed.

Lemma parse_string_length (s str r : string) :
  parse_string_body s = Some (str, r) →
  (String.length r < String.length s)%nat.
Proof. by apply (parse_string_body_length (String.length s)). Qed.

Lemma parse_fuel (f : nat) :
  (∀ s v r,
     parse_value f s = Some (v, r) →
     (String.length r < String.length s)%nat
     ∧ ∀ g, (String.length s - String.length r ≤ g)%nat →
            parse_value g s = Some (v, r))
  ∧ (∀ s l r,
       parse_elements f s = Some (l, r) →
       (String.length r < String.length s)%nat
       ∧ ∀ g, (String.length s - String.length r ≤ g)%nat →
              parse_elements g s = Some (l, r))
  ∧ (∀ s l r,
       parse_members f s = Some (l, r) →
       (String.length r < String.length s)%nat
       ∧ ∀ g, (String.length s - String.length r ≤ g)%nat →
              parse_members g s = Some (l, r)).
Proof.
  induction f as [|f (IHv & IHe & IHm)]; [by repeat split|].
  split; [|split].
  - intros s v r Hparse. cbn [parse_value] in Hparse.
    pose proof (skip_ws_length s) as Hws.
    destruct (skip_ws s) as [|c r0] eqn:Hs; [done|].
    cbn [String.length] in Hws.
    destruct (Ascii.eqb c "[") eqn:H1.
    { pose proof (skip_ws_length r0) as Hws0.
      destruct (skip_ws r0) as [|c' r'] eqn:Hr0; [done|].
      cbn [String.length] in Hws0.
      destruct (Ascii.eqb c' "]") eqn:H1'.
      - injection Hparse as <- <-. split; [lia|].
        intros [|g] Hg; [lia|]. cbn [parse_value].
        by rewrite Hs, H1, Hr0, H1'.
      - destruct (parse_elements f r0) as [[items r1]|] eqn:He; [|done].
        cbn in Hparse. injection Hparse as <- <-.
        destruct (IHe _ _ _ He) as [Hlen Hfuel].
        split; [lia|]. intros [|g] Hg; [lia|]. cbn [parse_value].
        rewrite Hs, H1, Hr0, H1', (Hfuel g); [done|lia]. }
    destruct (Ascii.eqb c "{") eqn:H2.
    { pose proof (skip_ws_length r0) as Hws0.
      destruct (skip_ws r0) as [|c' r'] eqn:Hr0; [done|].
      cbn [String.length] in Hws0.
      destruct (Ascii.eqb c' "}") eqn:H2'.
      - injection Hparse as <- <-. split; [lia|].
        intros [|g] Hg; [lia|]. cbn [parse_value].
        by rewrite Hs, H1, H2, Hr0, H2'.
      - destruct (parse_members f r0) as [[members r1]|] eqn:Hm; [|done].
        cbn in Hparse. injection Hparse as <- <-.
        destruct (IHm _ _ _ Hm) as [Hlen Hfuel].
        split; [lia|]. intros [|g] Hg; [lia|]. cbn [parse_value].
        rewrite Hs, H1, H2, Hr0, H2', (Hfuel g); [done|lia]. }
    destruct (Ascii.eqb c dquote) eqn:H3.
    { destruct (parse_string_body r0) as [[str r1]|] eqn:Hstr; [|done].
      cbn in Hparse. injection Hparse as <- <-.
      apply parse_string_length in Hstr as Hlen.
      split; [lia|]. intros [|g] Hg; [lia|]. cbn [parse_value].
      by rewrite Hs, H1, H2, H3, Hstr. }
    destruct (Ascii.eqb c "t") eqn:H4.
    { destruct (strip_prefix "rue" r0) as [r1|] eqn:Hlit; [|done].
      cbn in Hparse. injection Hparse as <- <-.
      apply strip_prefix_length in Hlit as Hlen.
      split; [lia|]. intros [|g] Hg; [lia|]. cbn [parse_value].
      by rewrite Hs, H1, H2, H3, H4, Hlit. }
    destruct (Ascii.eqb c "f") eqn:H5.
    { destruct (strip_prefix "alse" r0) as [r1|] eqn:Hlit; [|done].
      cbn in Hparse. injection Hparse as <- <-.
      apply strip_prefix_length in Hlit as Hlen.
      split; [lia|]. intros [|g] Hg; [lia|]. cbn [parse_value].
      by rewrite Hs, H1, H2, H3, H4, H5, Hlit. }
    destruct (Ascii.eqb c "n") eqn:H6.
    { destruct (strip_prefix "ull" r0) as [r1|] eqn:Hlit; [|done].
      cbn in Hparse. injection Hparse as <- <-.
      apply strip_prefix_length in Hlit as Hlen.
      split; [lia|]. intros [|g] Hg; [lia|]. cbn [parse_value].
      by rewrite Hs, H1, H2, H3, H4, H5, H6, Hlit. }
    apply parse_number_length in Hparse as Hlen. cbn [String.length] in Hlen.
    split; [lia|]. intros [|g] Hg; [lia|]. cbn [parse_value].
    by rewrite Hs, H1, H2, H3, H4, H5, H6.
  - intros s l r Hparse. cbn [parse_elements] in Hparse.
    destruct (parse_value f s) as [[v r0]|] eqn:Hv; [|done]. cbn in Hparse.
    destruct (IHv _ _ _ Hv) as [Hlen Hfuel].
    pose proof (skip_ws_length r0) as Hws.
    destruct (skip_ws r0) as [|c r1] eqn:Hr0; [done|].
    cbn [String.length] in Hws.
    destruct (Ascii.eqb c ",") eqn:H1.
    + destruct (parse_elements f r1) as [[vs r2]|] eqn:He; [|done].
      cbn in Hparse. injection Hparse as <- <-.
      destruct (IHe _ _ _ He) as [Hlen' Hfuel'].
      split; [lia|]. intros [|g] Hg; [lia|]. cbn [parse_elements].
      rewrite (Hfuel g) by lia. cbn. rewrite Hr0, H1, (Hfuel' g); [done|lia].
    + destruct (Ascii.eqb c "]") eqn:H2; [|done].
      injection Hparse as <- <-.
      split; [lia|]. intros [|g] Hg; [lia|]. cbn [parse_elements].
      rewrite (Hfuel g) by lia. cbn. by rewrite Hr0, H1, H2.
  - intros s l r Hparse. cbn [parse_members] in Hparse.
    pose proof (skip_ws_length s) as Hws.
    destruct (skip_ws s) as [|c r0] eqn:Hs; [done|].
    cbn [String.length] in Hws.
    destruct (Ascii.eqb c dquote) eqn:H1; [|done].
    destruct (parse_string_body r0) as [[k r1]|] eqn:Hk; [|done].
    cbn in Hparse. apply parse_string_length in Hk as Hklen.
    pose proof (skip_ws_length r1) as Hws1.
    destruct (skip_ws r1) as [|c1 r2] eqn:Hr1; [done|].
    cbn [String.length] in Hws1.
    destruct (Ascii.eqb c1 ":") eqn:H2; [|done].
    destruct (parse_value f r2) as [[v r3]|] eqn:Hv; [|done]. cbn in Hparse.
    destruct (IHv _ _ _ Hv) as [Hlen Hfuel].
    pose proof (skip_ws_length r3) as Hws3.
    destruct (skip_ws r3) as [|c2 r4] eqn:Hr3; [done|].
    cbn [String.length] in Hws3.
    destruct (Ascii.eqb c2 ",") eqn:H3.
    + destruct (parse_members f r4) as [[kvs r5]|] eqn:Hm; [|done].
      cbn in Hparse. injection Hparse as <- <-.
      destruct (IHm _ _ _ Hm) as [Hlen' Hfuel'].
      split; [lia|]. intros [|g] Hg; [lia|]. cbn [parse_members].
      rewrite Hs, H1, Hk. cbn. rewrite Hr1, H2, (Hfuel g) by lia. cbn.
      rewrite Hr3, H3, (Hfuel' g); [done|lia].
    + destruct (Ascii.eqb c2 "}") eqn:H4; [|done].
      injection Hparse as <- <-.
      split; [lia|]. intros [|g] Hg; [lia|]. cbn [parse_members].
      rewrite Hs, H1, Hk. cbn. rewrite Hr1, H2, (Hfuel g) by lia. cbn.
      by rewrite Hr3, H3, H4.
Qed.

(** What the reader reads with any fuel, [JSON.parse] reads: a
    [SyntaxError] is never for lack of fuel. *)
Lemma JSON_parse_fuel (fuel : nat) (text : string) (v : json) (rest : string) :
  parse_value fuel text = Some (v, rest) →
  skip_ws rest = EmptyString →
  JSON_parse text = Some v.
Proof.
  intros Hparse Hrest. unfold JSON_parse.
  destruct (parse_fuel fuel) as (Hv & _).
  destruct (Hv _ _ _ Hparse) as [_ Hfuel].
  rewrite (Hfuel (S (String.length text))) by lia. cbn. by rewrite Hrest.
Qed.
(** ** The request client *)

Section ApiFacts.
Context `{ProcessEnv}.

(** One call consumes one answer of the network and logs one request. *)
Lemma apiCall_answer (endpoint : string) (options : RequestInit)
    (w : World) (r : FetchResult) (net : list FetchResult) :
  network w = r :: net →
  apiCall endpoint options w
  = (received r, emit (Fetch (request_url endpoint) (fetch_init options)) net w).
Proof.
  destruct w as [net0 lg]. cbn [network]. intros ->.
  unfold received, apiCall, mbind, JS_bind, fetch. cbn [network fst].
  destruct r as [|resp]; [reflexivity|].
  destruct (Response_ok resp); cbn [negb]; [|reflexivity].
  unfold Response_json, mret, JS_ret, throw.
  by destruct (JSON_parse (utf8_decode (responseText resp))).
Qed.

Lemma apiCall_pending (endpoint : string) (options : RequestInit) (w : World) :
  network w = [] →
  apiCall endpoint options w
  = (Pending, emit (Fetch (request_url endpoint) (fetch_init options)) [] w).
Proof.
  destruct w as [net0 lg]. cbn [network]. intros ->. reflexivity.
Qed.

Lemma received_not_pending (r : FetchResult) : received r ≠ Pending.
Proof.
  unfold received, apiCall, mbind, JS_bind, fetch. cbn [network fst].
  destruct r as [|resp]; [done|].
  destruct (Response_ok resp); cbn [negb]; [|done].
  unfold Response_json, mret, JS_ret, throw.
  by destruct (JSON_parse (utf8_decode (responseText resp))).
Qed.
End ApiFacts.

(** ** The task poller *)

Lemma get_prop_defined {St} (v : json) (name : string) (st : St) :
  v ≠ JNull →
  get_prop v name st = (Resolved (get_prop_opt (Some v) name), st).
Proof. by destruct v. Qed.

Section PollerFacts.
Context `{ProcessEnv}.

Variables (initialResponse : json) (task_id : jsval).
Hypothesis not_null : initialResponse ≠ JNull.
Hypothesis task_id_read : get_prop_opt (Some initialResponse) "task_id" = task_id.

(** The status call of a round, its answer not yet looked at. *)
Lemma poll_round (fuel : nat) (w : World) (r : FetchResult)
    (net : list FetchResult) :
  network w = r :: net →
  pollForResults (S fuel) initialResponse w
  = match received r with
    | Resolved status =>
        (st ← get_prop status "status";
         if strict_eq_str st "completed" then
           apiCall (TASK_RESULT task_id) no_options
         else if strict_eq_str st "failed" then
           error ← get_prop status "error";
           throw (Error (if truthy error then template_text error
                         else "Task failed"))
         else
           _ ← sleep 2000; pollForResults fuel initialResponse)
          (emit (status_call task_id) net w)
    | Rejected e => (Rejected e, emit (status_call task_id) net w)
    | Pending => (Pending, emit (status_call task_id) net w)
    end.
Proof.
  intros Hnet. cbn [pollForResults]. unfold mbind at 1 2, JS_bind.
  rewrite (get_prop_defined _ _ _ not_null), task_id_read.
  rewrite (apiCall_answer _ _ _ _ _ Hnet).
  fold (status_call task_id).
  destruct (received r) as [status|e|]; try reflexivity.
  unfold mbind, JS_bind.
  destruct (get_prop status "status" _) as [[st|e|] w1]; try reflexivity.
  destruct (strict_eq_str st "completed"); [|reflexivity].
  by rewrite (get_prop_defined _ _ _ not_null), task_id_read.
Qed.

Lemma poll_round_pending (fuel : nat) (w : World) :
  network w = [] →
  pollForResults (S fuel) initialResponse w
  = (Pending, emit (status_call task_id) [] w).
Proof.
  intros Hnet. cbn [pollForResults]. unfold mbind, JS_bind.
  rewrite (get_prop_defined _ _ _ not_null), task_id_read.
  by rewrite (apiCall_pending _ _ _ Hnet).
Qed.

Lemma reports_received (r : FetchResult) (s : string) :
  reports r s = true →
  ∃ status, received r = Resolved status ∧ status ≠ JNull
            ∧ get_prop_opt (Some status) "status" = Some (JStr s).
Proof.
  unfold reports, status_field.
  destruct (received r) as [status|e|]; [|done..].
  intros Hs. exists status.
  destruct (get_prop_opt (Some status) "status") as [[]|] eqn:Hst; try done.
  apply String.eqb_eq in Hs as ->.
  repeat split. by intros ->.
Qed.

Lemma poll_round_running (fuel : nat) (w : World) (r : FetchResult)
    (net : list FetchResult) :
  network w = r :: net →
  still_running r = true →
  pollForResults (S fuel) initialResponse w
  = pollForResults fuel initialResponse
      (emit wait_2s net (emit (status_call task_id) net w)).
Proof.
  intros Hnet Hrun. rewrite (poll_round fuel w r net Hnet).
  unfold still_running, terminal, reports, status_field in Hrun.
  destruct (received r) as [status|e|]; [|done..].
  assert (status ≠ JNull) as Hnn by (by intros ->).
  unfold mbind, JS_bind. rewrite (get_prop_defined _ _ _ Hnn).
  destruct (strict_eq_str _ "completed"); [by destruct status|].
  destruct (strict_eq_str _ "failed"); [by destruct status|].
  reflexivity.
Qed.

Lemma poll_round_completed (fuel : nat) (w : World) (r : FetchResult)
    (net : list FetchResult) :
  network w = r :: net →
  reports r "completed" = true →
  pollForResults (S fuel) initialResponse w
  = apiCall (TASK_RESULT task_id) no_options
      (emit (status_call task_id) net w).
Proof.
  intros Hnet (status & Hr & Hnn & Hst)%reports_received.
  rewrite (poll_round fuel w r net Hnet), Hr.
  unfold mbind, JS_bind. by rewrite (get_prop_defined _ _ _ Hnn), Hst.
Qed.

Lemma poll_round_failed (fuel : nat) (w : World) (r : FetchResult)
    (net : list FetchResult) (status : json) :
  network w = r :: net →
  received r = Resolved status →
  reports r "failed" = true →
  pollForResults (S fuel) initialResponse w
  = (Rejected
       (Error (if truthy (get_prop_opt (Some status) "error")
               then template_text (get_prop_opt (Some status) "error")
               else "Task failed")),
     emit (status_call task_id) net w).
Proof.
  intros Hnet Hr (status' & Hr' & Hnn & Hst)%reports_received.
  rewrite Hr in Hr'. injection Hr' as <-.
  rewrite (poll_round fuel w r net Hnet), Hr.
  unfold mbind, JS_bind.
  rewrite (get_prop_defined _ _ _ Hnn), Hst.
  change (strict_eq_str (Some (JStr "failed")) "completed") with false.
  change (strict_eq_str (Some (JStr "failed")) "failed") with true.
  cbn beta iota. by rewrite (get_prop_defined _ _ _ Hnn).
Qed.

(** Any other answer ends the loop with an exception and without a
    further request. *)
Lemma poll_round_stops (fuel : nat) (w : World) (r : FetchResult)
    (net : list FetchResult) :
  network w = r :: net →
  still_running r = false →
  reports r "completed" = false →
  ∃ e, pollForResults (S fuel) initialResponse w
       = (Rejected e, emit (status_call task_id) net w).
Proof.
  intros Hnet Hrun Hdone. rewrite (poll_round fuel w r net Hnet).
  pose proof (received_not_pending r) as Hnp.
  unfold still_running, terminal, reports, status_field in *.
  destruct (received r) as [status|e|]; [|by eauto|done].
  assert (status = JNull ∨ status ≠ JNull) as [->|Hnn]
    by (destruct status; auto; by right);
    [by eexists|].
  unfold mbind, JS_bind. rewrite (get_prop_defined _ _ _ Hnn).
  rewrite Hdone in *.
  destruct (strict_eq_str _ "failed").
  - cbn beta. rewrite (get_prop_defined _ _ _ Hnn). by eexists.
  - by destruct status.
Qed.

Lemma apiCall_log (endpoint : string) (options : RequestInit) (w : World) :
  log (apiCall endpoint options w).2
  = log w ++ [Fetch (request_url endpoint) (fetch_init options)].
Proof.
  destruct (network w) as [|r net] eqn:Hnet.
  - by rewrite (apiCall_pending _ _ _ Hnet).
  - by rewrite (apiCall_answer _ _ _ _ _ Hnet).
Qed.

(** The requests of the loop, whatever the network answers. *)
Lemma poll_log (answers : list FetchResult) :
  ∀ fuel w,
    network w = answers →
    (length answers < fuel)%nat →
    log (pollForResults fuel initialResponse w).2
    = log w ++ poll_requests task_id answers.
Proof.
  induction answers as [|r net IH]; intros [|fuel] w Hnet Hfuel;
    cbn [length] in Hfuel; try lia.
  - by rewrite (poll_round_pending _ _ Hnet).
  - cbn [poll_requests].
    destruct (still_running r) eqn:Hrun.
    + rewrite (poll_round_running _ _ _ _ Hnet Hrun).
      rewrite IH; [|done|lia]. cbn [emit log].
      by rewrite <- !app_assoc.
    + destruct (reports r "completed") eqn:Hdone.
      * rewrite (poll_round_completed _ _ _ _ Hnet Hdone), apiCall_log.
        cbn [emit log]. by rewrite <- !app_assoc.
      * destruct (poll_round_stops fuel _ _ _ Hnet Hrun Hdone) as [e ->].
        reflexivity.
Qed.

(** Answers that are not terminal are consumed one per round. *)
Lemma poll_skip_running (running : list FetchResult) :
  ∀ fuel w tail,
    network w = running ++ tail →
    Forall (λ r, still_running r = true) running →
    pollForResults (length running + fuel) initialResponse w
    = pollForResults fuel initialResponse
        {| network := tail;
           log := log w ++ waiting_rounds task_id running |}.
Proof.
  induction running as [|r running IH]; intros fuel w tail Hnet Hall.
  - destruct w as [net lg]. cbn in *. subst. by rewrite app_nil_r.
  - apply Forall_cons in Hall as [Hr Hall]. cbn [length Nat.add].
    rewrite (poll_round_running _ _ _ _ Hnet Hr).
    rewrite (IH fuel _ tail); [|done|done].
    cbn [emit log waiting_rounds flat_map]. by rewrite <- !app_assoc.
Qed.

Lemma poll_requests_running (running tail : list FetchResult) :
  Forall (λ r, still_running r = true) running →
  poll_requests task_id (running ++ tail)
  = waiting_rounds task_id running ++ poll_requests task_id tail.
Proof.
  induction 1 as [|r running Hr _ IH]; [reflexivity|].
  cbn [app poll_requests]. rewrite Hr, IH. reflexivity.
Qed.
End PollerFacts.

Lemma prefix_append (p s x : string) :
  (String.length p ≤ String.length s)%nat →
  String.prefix p (s +:+ x) = String.prefix p s.
Proof.
  revert s. induction p as [|a p IH]; intros s Hlen.
  - by destruct s, x.
  - destruct s as [|b s]; cbn in *; [lia|].
    destruct (ascii_dec a b); [|reflexivity]. apply IH. lia.
Qed.

Section Requests.
Context `{ProcessEnv}.

Lemma TASK_RESULT_STATUS (task_id : jsval) :
  TASK_RESULT task_id = TASK_STATUS task_id +:+ "/result".
Proof. unfold TASK_RESULT, TASK_STATUS. by rewrite !append_assoc. Qed.

Lemma request_url_result_length (task_id : jsval) :
  String.length (request_url (TASK_RESULT task_id))
  = (String.length (request_url (TASK_STATUS task_id)) + 7)%nat.
Proof.
  rewrite TASK_RESULT_STATUS. unfold request_url.
  rewrite prefix_append.
  - destruct (String.prefix "http" (TASK_STATUS task_id));
      rewrite <- ?append_assoc, length_append; reflexivity.
  - unfold TASK_STATUS. rewrite !length_append. cbn. lia.
Qed.

(** A status call is no result call. *)
Lemma status_call_not_result (task_id : jsval) :
  status_call task_id ≠ result_call task_id.
Proof.
  unfold status_call, result_call. intros [= Heq].
  pose proof (request_url_result_length task_id) as Hlen.
  rewrite <- Heq in Hlen. lia.
Qed.

(** The result call is issued only behind a [completed] answer to the
    status call before it. *)
Lemma result_call_behind_completed (task_id : jsval)
    (answers : list FetchResult) :
  result_call task_id ∈ poll_requests task_id answers →
  ∃ running last rest,
    answers = running ++ last :: rest
    ∧ Forall (λ r, still_running r = true) running
    ∧ reports last "completed" = true.
Proof.
  pose proof (status_call_not_result task_id) as Hne.
  induction answers as [|r net IH]; cbn [poll_requests].
  - intros ?%list_elem_of_singleton. by destruct Hne.
  - destruct (still_running r) eqn:Hrun.
    + rewrite !elem_of_cons. intros [?|[?|Hin]]; [by destruct Hne|done|].
      destruct (IH Hin) as (running & last & rest & -> & Hall & Hdone).
      exists (r :: running), last, rest. by repeat split; [constructor|].
    + destruct (reports r "completed") eqn:Hdone.
      * intros _. by exists [], r, net.
      * intros ?%list_elem_of_singleton. by destruct Hne.
Qed.
End Requests.

Section ExecuteTask.
Context `{ProcessEnv}.

Lemma truthy_task_id_object (v : json) :
  truthy (get_prop_opt (Some v) "task_id") = true → v ≠ JNull.
Proof. by intros Ht ->. Qed.

(** After an asynchronous submission [executeTask] is its poll loop. *)
Lemma executeTask_async (endpoint : string) (payload : json) (w : World)
    (r0 : FetchResult) (answers : list FetchResult) (v0 : json) :
  network w = r0 :: answers →
  received r0 = Resolved v0 →
  truthy (get_prop_opt (Some v0) "task_id") = true →
  executeTask endpoint payload w
  = pollForResults (S (length answers)) v0
      (emit (submit_call endpoint payload) answers w).
Proof.
  intros Hnet Hr0 Hid. pose proof (truthy_task_id_object _ Hid) as Hnn.
  unfold executeTask, mbind, JS_bind.
  rewrite (apiCall_answer _ _ _ _ _ Hnet), Hr0.
  by rewrite (get_prop_defined _ _ _ Hnn), Hid.
Qed.

(** After a synchronous answer [executeTask] returns at once. *)
Lemma executeTask_sync (endpoint : string) (payload : json) (w : World)
    (r0 : FetchResult) (rest : list FetchResult) (v0 : json) :
  network w = r0 :: rest →
  received r0 = Resolved v0 →
  v0 ≠ JNull →
  truthy (get_prop_opt (Some v0) "task_id") = false →
  executeTask endpoint payload w
  = (Resolved v0, emit (submit_call endpoint payload) rest w).
Proof.
  intros Hnet Hr0 Hnn Hid.
  unfold executeTask, mbind, JS_bind.
  rewrite (apiCall_answer _ _ _ _ _ Hnet), Hr0.
  by rewrite (get_prop_defined _ _ _ Hnn), Hid.
Qed.

(** C1.  After an asynchronous submission (the initial response carries
    a task identifier) [executeTask] issues, behind the submission,
    exactly the requests of [poll_requests]: status calls, each
    non-terminal answer followed by one 2000 ms timer and a further
    status call.  When the answers are non-terminal up to a first
    terminal one, there is one status call per answer up to and
    including the terminal one, with a timer between consecutive calls,
    and nothing behind but the result call if the terminal status is
    [completed].  The result call never occurs unless the status call
    before it was answered [completed]. *)
Theorem executeTask_polls_until_terminal
    (endpoint : string) (payload : json) (w : World)
    (r0 : FetchResult) (answers : list FetchResult) (v0 : json) :
  network w = r0 :: answers →
  received r0 = Resolved v0 →
  truthy (get_prop_opt (Some v0) "task_id") = true →
  let task_id := get_prop_opt (Some v0) "task_id" in
  let issued := poll_requests task_id answers in
  log (executeTask endpoint payload w).2
  = log w ++ submit_call endpoint payload :: issued
  ∧ (∀ running last rest,
       answers = running ++ last :: rest →
       Forall (λ r, still_running r = true) running →
       terminal last = true →
       issued
       = waiting_rounds task_id running
           ++ status_call task_id
           :: (if reports last "completed" then [result_call task_id] else []))
  ∧ (result_call task_id ∈ issued →
     ∃ running last rest,
       answers = running ++ last :: rest
       ∧ Forall (λ r, still_running r = true) running
       ∧ reports last "completed" = true).
Proof.
  intros Hnet Hr0 Hid task_id issued.
  pose proof (truthy_task_id_object _ Hid) as Hnn.
  split; [|split].
  - rewrite (executeTask_async _ _ _ _ _ _ Hnet Hr0 Hid).
    rewrite (poll_log v0 task_id Hnn eq_refl answers); [|done|lia].
    cbn [emit log]. by rewrite <- app_assoc.
  - intros running last rest -> Hall Hterm. unfold issued.
    rewrite (poll_requests_running _ _ _ Hall). f_equal.
    cbn [poll_requests].
    assert (still_running last = false) as ->.
    { unfold still_running. rewrite Hterm. by destruct (received last) as [[]| |]. }
    by destruct (reports last "completed").
  - apply result_call_behind_completed.
Qed.
End ExecuteTask.

Section Fuel.
Context `{ProcessEnv}.

(** A round whose answer ends the loop does not look at the fuel left. *)
Lemma poll_round_last (initialResponse : json) (fuel fuel' : nat)
    (w : World) (r : FetchResult) (net : list FetchResult) :
  initialResponse ≠ JNull →
  network w = r :: net →
  still_running r = false →
  pollForResults (S fuel) initialResponse w
  = pollForResults (S fuel') initialResponse w.
Proof.
  intros Hnn Hnet Hrun.
  rewrite (poll_round _ _ Hnn eq_refl fuel w r net Hnet).
  rewrite (poll_round _ _ Hnn eq_refl fuel' w r net Hnet).
  unfold still_running, terminal, reports, status_field in Hrun.
  destruct (received r) as [status|e|]; try reflexivity.
  assert (status = JNull ∨ status ≠ JNull) as [->|Hs]
    by (destruct status; auto; by right); [reflexivity|].
  unfold mbind, JS_bind. rewrite (get_prop_defined _ _ _ Hs).
  destruct (strict_eq_str _ "completed"); [reflexivity|].
  destruct (strict_eq_str _ "failed"); [reflexivity|].
  by destruct status.
Qed.

(** The bound on the rounds is never reached: any fuel beyond the
    number of answers the network holds gives the same run. *)
Lemma pollForResults_fuel (initialResponse : json) (n : nat) :
  ∀ fuel fuel' w,
    (length (network w) ≤ n)%nat →
    (n < fuel)%nat → (n < fuel')%nat →
    pollForResults fuel initialResponse w
    = pollForResults fuel' initialResponse w.
Proof.
  assert (initialResponse = JNull ∨ initialResponse ≠ JNull) as [->|Hnn]
    by (destruct initialResponse; auto; by right).
  { intros [|fuel] [|fuel'] w; try lia; reflexivity. }
  induction n as [|n IH]; intros [|fuel] [|fuel'] w Hlen Hfuel Hfuel';
    try lia;
    destruct (network w) as [|r net] eqn:Hnet; cbn [length] in Hlen; try lia;
    try by rewrite !(poll_round_pending _ _ Hnn eq_refl _ _ Hnet).
  destruct (still_running r) eqn:Hrun.
  - rewrite !(poll_round_running _ _ Hnn eq_refl _ _ _ _ Hnet Hrun).
    apply IH; cbn [emit network]; lia.
  - by apply (poll_round_last _ _ _ _ r net).
Qed.

(** [executeTask] is suspended only with the network script used up. *)
Lemma pollForResults_pending (initialResponse : json) (fuel : nat) :
  ∀ w,
    (length (network w) < fuel)%nat →
    (pollForResults fuel initialResponse w).1 = Pending →
    network (pollForResults fuel initialResponse w).2 = [].
Proof.
  assert (initialResponse = JNull ∨ initialResponse ≠ JNull) as [->|Hnn]
    by (destruct initialResponse; auto; by right).
  { destruct fuel; intros w Hfuel; [lia|done]. }
  induction fuel as [|fuel IH]; intros w Hfuel; [lia|].
  destruct (network w) as [|r net] eqn:Hnet.
  - by rewrite (poll_round_pending _ _ Hnn eq_refl _ _ Hnet).
  - cbn [length] in Hfuel. destruct (still_running r) eqn:Hrun.
    + rewrite (poll_round_running _ _ Hnn eq_refl _ _ _ _ Hnet Hrun).
      apply IH. cbn [emit network]. lia.
    + destruct (reports r "completed") eqn:Hdone.
      * rewrite (poll_round_completed _ _ Hnn eq_refl _ _ _ _ Hnet Hdone).
        destruct net as [|r' net'].
        -- by rewrite apiCall_pending.
        -- rewrite (apiCall_answer _ _ _ r' net') by done. cbn [fst].
           intros Hp. by apply received_not_pending in Hp.
      * by destruct (poll_round_stops _ _ Hnn eq_refl fuel _ _ _ Hnet Hrun Hdone)
          as [e ->].
Qed.

Lemma executeTask_pending (endpoint : string) (payload : json) (w : World) :
  (executeTask endpoint payload w).1 = Pending →
  network (executeTask endpoint payload w).2 = [].
Proof.
  destruct (network w) as [|r0 answers] eqn:Hnet.
  { unfold executeTask, mbind, JS_bind. by rewrite apiCall_pending. }
  destruct (received r0) as [v0|e|] eqn:Hr0.
  - destruct (truthy (get_prop_opt (Some v0) "task_id")) eqn:Hid.
    + rewrite (executeTask_async _ _ _ _ _ _ Hnet Hr0 Hid).
      apply pollForResults_pending. cbn [emit network]. lia.
    + unfold executeTask, mbind, JS_bind.
      rewrite (apiCall_answer _ _ _ _ _ Hnet), Hr0.
      assert (v0 = JNull ∨ v0 ≠ JNull) as [->|Hnn]
        by (destruct v0; auto; by right); [done|].
      by rewrite (get_prop_defined _ _ _ Hnn), Hid.
  - unfold executeTask, mbind, JS_bind.
    by rewrite (apiCall_answer _ _ _ _ _ Hnet), Hr0.
  - by apply received_not_pending in Hr0.
Qed.
End Fuel.

Section Polling.
Context `{ProcessEnv}.

Lemma running_answer_still_running : still_running running_answer = true.
Proof. vm_compute. reflexivity. Qed.

Lemma result_call_not_waiting (task_id : jsval) (running : list FetchResult) :
  result_call task_id ∉ waiting_rounds task_id running ++ [status_call task_id].
Proof.
  pose proof (status_call_not_result task_id) as Hne.
  induction running as [|r running IH]; cbn.
  - by intros ?%list_elem_of_singleton.
  - rewrite !elem_of_cons. by intros [?|[?|?]].
Qed.

Lemma count_calls_waiting_rounds (task_id : jsval)
    (running : list FetchResult) (l : list Event) :
  count_calls (status_call task_id) (waiting_rounds task_id running ++ l)
  = (length running + count_calls (status_call task_id) l)%nat.
Proof.
  unfold count_calls.
  induction running as [|r running IH]; [reflexivity|].
  cbn [waiting_rounds flat_map app length Nat.add].
  rewrite filter_cons_True by done.
  rewrite filter_cons_False by done.
  cbn [length]. f_equal. apply IH.
Qed.

(** While the answers are not terminal, the loop goes on: with all of
    them consumed it is suspended on a further status call. *)
Lemma executeTask_still_polling (endpoint : string) (payload : json)
    (w : World) (r0 : FetchResult) (answers : list FetchResult) (v0 : json) :
  network w = r0 :: answers →
  received r0 = Resolved v0 →
  truthy (get_prop_opt (Some v0) "task_id") = true →
  Forall (λ r, still_running r = true) answers →
  executeTask endpoint payload w
  = (Pending,
     {| network := [];
        log := log w ++ submit_call endpoint payload
                 :: waiting_rounds (get_prop_opt (Some v0) "task_id") answers
                 ++ [status_call (get_prop_opt (Some v0) "task_id")] |}).
Proof.
  intros Hnet Hr0 Hid Hall.
  pose proof (truthy_task_id_object _ Hid) as Hnn.
  rewrite (executeTask_async _ _ _ _ _ _ Hnet Hr0 Hid).
  replace (S (length answers)) with (length answers + 1)%nat by lia.
  rewrite (poll_skip_running v0 _ Hnn eq_refl answers 1%nat _ []);
    [|by rewrite app_nil_r|done].
  rewrite (poll_round_pending v0 _ Hnn eq_refl); [|done].
  unfold emit. cbn [log network]. by rewrite <- !app_assoc.
Qed.

(** When the first terminal answer is [failed], the loop throws. *)
Lemma executeTask_failed (endpoint : string) (payload : json)
    (w : World) (r0 : FetchResult) (running : list FetchResult)
    (last : FetchResult) (rest : list FetchResult) (v0 status : json) :
  network w = r0 :: running ++ last :: rest →
  received r0 = Resolved v0 →
  truthy (get_prop_opt (Some v0) "task_id") = true →
  Forall (λ r, still_running r = true) running →
  received last = Resolved status →
  reports last "failed" = true →
  executeTask endpoint payload w
  = (Rejected
       (Error (if truthy (get_prop_opt (Some status) "error")
               then template_text (get_prop_opt (Some status) "error")
               else "Task failed")),
     {| network := rest;
        log := log w ++ submit_call endpoint payload
                 :: waiting_rounds (get_prop_opt (Some v0) "task_id") running
                 ++ [status_call (get_prop_opt (Some v0) "task_id")] |}).
Proof.
  intros Hnet Hr0 Hid Hall Hlast Hfailed.
  pose proof (truthy_task_id_object _ Hid) as Hnn.
  rewrite (executeTask_async _ _ _ _ _ _ Hnet Hr0 Hid).
  replace (S (length (running ++ last :: rest)))
    with (length running + S (S (length rest)))%nat
    by (rewrite length_app; cbn; lia).
  rewrite (poll_skip_running v0 _ Hnn eq_refl running _ _ (last :: rest));
    [|done|done].
  rewrite (poll_round_failed v0 _ Hnn eq_refl _ _ last rest status);
    [|done..].
  unfold emit. cbn [log network]. by rewrite <- !app_assoc.
Qed.
End Polling.

Section PollerClaims.
Context `{ProcessEnv}.

(** C8.  The poll loop has no bound of its own: for every [n] there
    are non-terminal status answers under which [executeTask], after an
    asynchronous submission, neither returns nor fails and has issued
    more than [n] status calls. *)
Theorem poll_loop_unbounded (n : nat) :
  ∃ answers : list FetchResult,
    Forall (λ r, still_running r = true) answers
    ∧ ∀ endpoint payload w r0 v0,
        network w = r0 :: answers →
        received r0 = Resolved v0 →
        truthy (get_prop_opt (Some v0) "task_id") = true →
        (executeTask endpoint payload w).1 = Pending
        ∧ ∃ issued,
            log (executeTask endpoint payload w).2
            = log w ++ submit_call endpoint payload :: issued
            ∧ (n < count_calls (status_call (get_prop_opt (Some v0) "task_id"))
                     issued)%nat.
Proof.
  exists (replicate n running_answer). split.
  - apply Forall_replicate, running_answer_still_running.
  - intros endpoint payload w r0 v0 Hnet Hr0 Hid.
    rewrite (executeTask_still_polling _ _ _ _ _ _ Hnet Hr0 Hid)
      by apply Forall_replicate, running_answer_still_running.
    split; [reflexivity|]. eexists. split; [reflexivity|].
    rewrite count_calls_waiting_rounds, length_replicate.
    unfold count_calls. rewrite filter_cons_True by done. cbn. lia.
Qed.

(** C4.  When a poll attempt is answered with status [failed],
    [executeTask] fails with an [Error] whose message is the answer's
    [error] (as a string) if that is truthy, and ['Task failed']
    otherwise: a non-empty error string is carried as it is, an answer
    without [error] gives the generic message.  The last request is
    that status call; no result call is issued. *)
Theorem executeTask_task_failure
    (endpoint : string) (payload : json) (w : World)
    (r0 : FetchResult) (running : list FetchResult) (last : FetchResult)
    (rest : list FetchResult) (v0 status : json) :
  network w = r0 :: running ++ last :: rest →
  received r0 = Resolved v0 →
  truthy (get_prop_opt (Some v0) "task_id") = true →
  Forall (λ r, still_running r = true) running →
  received last = Resolved status →
  reports last "failed" = true →
  let task_id := get_prop_opt (Some v0) "task_id" in
  let error := get_prop_opt (Some status) "error" in
  let issued := waiting_rounds task_id running ++ [status_call task_id] in
  (executeTask endpoint payload w).1
  = Rejected (Error (if truthy error then template_text error
                     else "Task failed"))
  ∧ (∀ m, error = Some (JStr m) → m ≠ EmptyString →
          (executeTask endpoint payload w).1 = Rejected (Error m))
  ∧ (error = None →
     (executeTask endpoint payload w).1 = Rejected (Error "Task failed"))
  ∧ log (executeTask endpoint payload w).2
    = log w ++ submit_call endpoint payload :: issued
  ∧ result_call task_id ∉ issued.
Proof.
  intros Hnet Hr0 Hid Hall Hlast Hfailed task_id error issued.
  rewrite (executeTask_failed _ _ _ _ _ _ _ _ _ Hnet Hr0 Hid Hall Hlast Hfailed).
  fold error. repeat split.
  - intros m -> Hm. cbn. by destruct m.
  - by intros ->.
  - apply result_call_not_waiting.
Qed.

(** C2, for responses other than [null].  When the initial response is a
    document other than [null] and carries no task identifier,
    [executeTask] returns that very response; the submission is the only
    request it issues and the answers behind it stay unread. *)
Theorem executeTask_returns_direct_response
    (endpoint : string) (payload : json) (w : World)
    (r0 : FetchResult) (rest : list FetchResult) (v0 : json) :
  network w = r0 :: rest →
  received r0 = Resolved v0 →
  v0 ≠ JNull →
  get_prop_opt (Some v0) "task_id" = None →
  executeTask endpoint payload w
  = (Resolved v0,
     {| network := rest; log := log w ++ [submit_call endpoint payload] |}).
Proof.
  intros Hnet Hr0 Hnn Hid.
  rewrite (executeTask_sync _ _ _ _ _ _ Hnet Hr0 Hnn); [reflexivity|].
  by rewrite Hid.
Qed.

(** C10.  When the initial response has a [task_id] property whose
    value is falsy (the empty string, [0], [null] or [false]),
    [executeTask] returns the response unchanged and issues no request
    but the submission. *)
Theorem executeTask_falsy_task_id
    (endpoint : string) (payload : json) (w : World)
    (r0 : FetchResult) (rest : list FetchResult)
    (fields : list (string * json)) (id : json) :
  network w = r0 :: rest →
  received r0 = Resolved (JObj fields) →
  lookup_field "task_id" fields = Some id →
  id = JStr EmptyString ∨ id = JNum 0 ∨ id = JNull ∨ id = JBool false →
  executeTask endpoint payload w
  = (Resolved (JObj fields),
     {| network := rest; log := log w ++ [submit_call endpoint payload] |}).
Proof.
  intros Hnet Hr0 Hid Hfalsy.
  rewrite (executeTask_sync _ _ _ _ _ _ Hnet Hr0); [reflexivity|done|].
  cbn [get_prop_opt]. rewrite Hid.
  by destruct Hfalsy as [->|[->|[->| ->]]].
Qed.
End PollerClaims.

(** ** Parsed documents are well-formed *)

















(** ** The artifact cache *)




(** Loading when nothing was stored, or the empty text, or a list
    without elements, or a document that is no list. *)
Lemma loadFromDiscoverer_nothing (t : Tab Classifier.Page) :
  match localStorage t !! "bynd:last_discovered_articles" with
  | None => True
  | Some text =>
      text = EmptyString
      ∨ ∃ v, JSON_parse text = Some v
             ∧ match v with JArr (_ :: _) => False | _ => True end
  end →
  absent_outcome
    (AlertText "No discovered articles found. Run News Discoverer first.")
    t (Classifier.loadFromDiscoverer t).
Proof.
  intros Hstored.
  unfold Classifier.loadFromDiscoverer, try_catch, mbind, JS_bind,
    localStorage_getItem.
  destruct (localStorage t !! "bynd:last_discovered_articles") as [text|];
    [|by destruct t].
  destruct Hstored as [->|(v & Hv & Hshape)]; [by destruct t|].
  destruct (String.eqb text EmptyString); [by destruct t|].
  unfold JSON_parse_js. rewrite Hv.
  by destruct t, v as [ | | | | | [|] | ].
Qed.

(** Loading a stored text that is no JSON. *)
Lemma loadFromDiscoverer_corrupted (t : Tab Classifier.Page) (text : string) :
  localStorage t !! "bynd:last_discovered_articles" = Some text →
  text ≠ EmptyString →
  JSON_parse text = None →
  absent_outcome (AlertText "Failed to load discovered articles")
    t (Classifier.loadFromDiscoverer t)
  ∧ console (Classifier.loadFromDiscoverer t).2
    = console t ++ [ConsoleError None SyntaxError].
Proof.
  intros Hstored Hne Hparse.
  unfold Classifier.loadFromDiscoverer, try_catch, mbind, JS_bind,
    localStorage_getItem.
  rewrite Hstored. apply String.eqb_neq in Hne as ->.
  unfold JSON_parse_js. rewrite Hparse.
  by destruct t.
Qed.

(** [loadFromDiscoverer] never throws. *)
Lemma loadFromDiscoverer_completes (t : Tab Classifier.Page) :
  (Classifier.loadFromDiscoverer t).1 = Resolved ().
Proof.
  unfold Classifier.loadFromDiscoverer, try_catch, mbind, JS_bind,
    localStorage_getItem.
  destruct (localStorage t !! "bynd:last_discovered_articles") as [text|];
    [|reflexivity].
  destruct (String.eqb text EmptyString); [reflexivity|].
  unfold JSON_parse_js.
  destruct (JSON_parse text) as [[ | | | | | [|] | ]|]; reflexivity.
Qed.

Section Results.
Context `{ProcessEnv}.






End Results.




Section CacheClaims.
Context `{ProcessEnv}.


(** C7.  [loadFromDiscoverer] never throws.  When nothing is stored
    under the key, or the stored text is no JSON, it ends in the
    "absent" outcome: an alert, with storage and page state untouched. *)
Theorem loadFromDiscoverer_absent (t : Tab Classifier.Page) :
  (Classifier.loadFromDiscoverer t).1 = Resolved ()
  ∧ (localStorage t !! "bynd:last_discovered_articles" = None →
     absent_outcome
       (AlertText "No discovered articles found. Run News Discoverer first.")
       t (Classifier.loadFromDiscoverer t))
  ∧ (∀ text,
       localStorage t !! "bynd:last_discovered_articles" = Some text →
       JSON_parse text = None →
       absent_outcome
         (if String.eqb text EmptyString
          then AlertText "No discovered articles found. Run News Discoverer first."
          else AlertText "Failed to load discovered articles")
         t (Classifier.loadFromDiscoverer t)).
Proof.
  split; [apply loadFromDiscoverer_completes|]. split.
  - intros Hnone. apply loadFromDiscoverer_nothing. by rewrite Hnone.
  - intros text Hsome Hparse.
    destruct (String.eqb_spec text EmptyString) as [->|Hne].
    + apply loadFromDiscoverer_nothing. rewrite Hsome. by left.
    + by apply (loadFromDiscoverer_corrupted t text).
Qed.
End CacheClaims.

(** ** The request client: claims *)

Section ClientClaims.
Context `{ProcessEnv}.

(** C5.  A response whose status is outside 200-299, in particular one
    of 400 or more, makes [apiCall] fail with the [Error] that carries
    the status code and the status text, whatever the body.  A response
    in the range gives the document that its body denotes: the document
    [v] for a body that is the text of [v], and in general what
    [JSON.parse] reads; a body that is no JSON gives a [SyntaxError],
    which is no such [Error]. *)
Theorem apiCall_status_handling
    (endpoint : string) (options : RequestInit) (w : World)
    (response : Response) (rest : list FetchResult) :
  network w = Responds response :: rest →
  let outcome := (apiCall endpoint options w).1 in
  (400 ≤ status response → Response_ok response = false)
  ∧ (Response_ok response = false →
     outcome
     = Rejected (Error ("API Error: " +:+ number_text (status response)
                          +:+ " " +:+ statusText response)))
  ∧ (Response_ok response = true →
     (∀ v, well_formed v = true →
           responseText response = JSON_stringify v →
           outcome = Resolved v)
     ∧ (∀ v, JSON_parse (utf8_decode (responseText response)) = Some v →
             outcome = Resolved v)
     ∧ (JSON_parse (utf8_decode (responseText response)) = None →
        outcome = Rejected SyntaxError))
  ∧ (∀ message, SyntaxError ≠ Error message).
Proof.
  intros Hnet outcome. unfold outcome.
  rewrite (apiCall_answer _ _ _ _ _ Hnet).
  unfold received, apiCall, mbind, JS_bind, fetch, Response_json.
  cbn [network fst]. split; [|split; [|split]].
  - unfold Response_ok. intros Hstatus.
    apply andb_false_iff. right. apply Z.leb_gt. lia.
  - by intros ->.
  - intros ->. cbn [negb]. split; [|split].
    + intros v Hv ->.
      by rewrite utf8_decode_stringify, (JSON_parse_stringify v Hv).
    + by intros v ->.
    + by intros ->.
  - done.
Qed.

(** C3, as the code has it.  Headers of the caller replace the merged
    headers as a whole: with [authorized_options], which carry an
    [Authorization] header and no content type, the request of
    [apiCall] has that header alone and no [Content-Type]. *)
Theorem apiCall_caller_headers_drop_content_type
    (endpoint : string) (w : World) :
  log (apiCall endpoint authorized_options w).2
  = log w ++ [Fetch (request_url endpoint)
                {| method := None;
                   headers := Some {["Authorization" := "Bearer token"]};
                   body := None |}]
  ∧ ({["Authorization" := "Bearer token"]} : gmap string string)
      !! "Content-Type" = None.
Proof. split; [apply apiCall_log | done]. Qed.

(** Without headers of the caller the request carries the default. *)
Lemma fetch_init_default_headers (options : RequestInit) :
  headers options = None →
  headers (fetch_init options)
  = Some {["Content-Type" := "application/json"]}.
Proof.
  intros Hnone. unfold fetch_init, spread_init, spread_headers.
  cbn. rewrite Hnone. cbn. by rewrite ?(left_id_L ∅ (∪)).
Qed.

Lemma fetch_init_caller_headers (options : RequestInit)
    (h : gmap string string) :
  headers options = Some h → headers (fetch_init options) = Some h.
Proof. intros Hsome. unfold fetch_init, spread_init. cbn. by rewrite Hsome. Qed.
End ClientClaims.

(** ** The session context: claims *)

(** C9.  The first render of a provider draws the two identifiers.
    Within one provider instance every render hands its children the
    same identity, whatever [Math.random] yields later, so any two reads
    of it agree.  After [setUserId] or [setSessionId] the next
    render hands out the value set last and leaves the other identifier
    alone.  Outside a provider [useSession] throws. *)
Theorem session_identity :
  (∀ ra rb,
     (Session.SessionProvider ra rb Session.unmounted).1
     = {| Session.userId := "user_" +:+ substring 2 9 ra;
          Session.sessionId := "session_" +:+ substring 2 9 rb |})
  ∧ (∀ h ra rb ra' rb',
     let first := Session.SessionProvider ra rb h in
     let second := Session.SessionProvider ra' rb' first.2 in
     second.1 = first.1
     ∧ Session.useSession (Some second.1) = Session.useSession (Some first.1)
     ∧ Session.useSession (Some first.1) = Resolved first.1)
  ∧ (∀ h id ra rb,
       let c := (Session.SessionProvider ra rb (Session.setUserId id h)).1 in
       Session.userId c = id
       ∧ Session.sessionId c
         = Session.sessionId (Session.SessionProvider ra rb h).1)
  ∧ (∀ h id ra rb,
       let c := (Session.SessionProvider ra rb (Session.setSessionId id h)).1 in
       Session.sessionId c = id
       ∧ Session.userId c = Session.userId (Session.SessionProvider ra rb h).1)
  ∧ (∀ h a b ra rb,
       Session.userId
         (Session.SessionProvider ra rb
            (Session.setUserId b (Session.setUserId a h))).1 = b
       ∧ Session.sessionId
           (Session.SessionProvider ra rb
              (Session.setSessionId b (Session.setSessionId a h))).1 = b)
  ∧ Session.useSession None
    = Rejected (Error "useSession must be used within a SessionProvider").
Proof. repeat split. Qed.

(** ** The claims at the sample inputs *)

Section Samples.
#[local] Existing Instance local_env.

Let payload : json := discover_payload discoverer_page.
Let t1 : jsval := Some (JStr "t1").

(** C1 at the first scenario: running (half way through), then
    completed. *)
Lemma executeTask_polls_until_terminal_witness :
  let w := fresh_world [task_response; halfway_answer; completed_answer;
                        result_answer] in
  log (executeTask NEWS_DISCOVERER payload w).2
  = [submit_call NEWS_DISCOVERER payload; status_call t1; wait_2s;
     status_call t1; result_call t1]
  ∧ (executeTask NEWS_DISCOVERER payload w).1
    = Resolved (JObj [("articles", JArr discovered_articles);
                      ("total_found", JNum 2)]).
Proof.
  intros w.
  destruct (executeTask_polls_until_terminal NEWS_DISCOVERER payload w
              task_response
              [halfway_answer; completed_answer; result_answer]
              (JObj [("task_id", JStr "t1")]))
    as (Hlog & Huntil & _);
    [reflexivity | by vm_compute | reflexivity |].
  split; [|by vm_compute].
  rewrite Hlog.
  rewrite (Huntil [halfway_answer] completed_answer [result_answer]);
    [reflexivity | reflexivity | | by vm_compute].
  constructor; [by vm_compute | constructor].
Defined.

(** C2 at a classification answer, which has no task identifier. *)
Lemma executeTask_returns_direct_response_witness :
  executeTask CLASSIFY payload (fresh_world [json_response classify_response])
  = (Resolved classify_response,
     {| network := []; log := [submit_call CLASSIFY payload] |}).
Proof.
  apply (executeTask_returns_direct_response CLASSIFY payload
           (fresh_world [json_response classify_response])
           (json_response classify_response) [] classify_response);
    [reflexivity | by vm_compute | done | reflexivity].
Defined.

(** C2 does not extend to the body [null], which carries no task
    identifier either: there the read of [task_id] throws, so the
    response is not returned; nothing is requested beyond the
    submission. *)
Lemma executeTask_null_response_throws :
  received (json_response JNull) = Resolved JNull
  ∧ get_prop_opt (Some JNull) "task_id" = None
  ∧ (executeTask CLASSIFY payload (fresh_world [json_response JNull])).1
    = Rejected (TypeError "Cannot read properties of null (reading 'task_id')")
  ∧ (executeTask CLASSIFY payload (fresh_world [json_response JNull])).1
    ≠ Resolved JNull
  ∧ log (executeTask CLASSIFY payload (fresh_world [json_response JNull])).2
    = [submit_call CLASSIFY payload].
Proof. repeat split; by vm_compute. Qed.

(** C4 at the third scenario: [failed] with an error message. *)
Lemma executeTask_task_failure_witness :
  (executeTask NEWS_DISCOVERER payload
     (fresh_world [task_response; running_answer; failed_answer;
                   result_answer])).1
  = Rejected (Error "timeout upstream").
Proof.
  destruct (executeTask_task_failure NEWS_DISCOVERER payload
              (fresh_world [task_response; running_answer; failed_answer;
                            result_answer])
              task_response [running_answer] failed_answer [result_answer]
              (JObj [("task_id", JStr "t1")])
              (JObj [("status", JStr "failed");
                     ("error", JStr "timeout upstream")]))
    as (_ & Hmessage & _);
    [reflexivity | by vm_compute | reflexivity
    | constructor; [by vm_compute | constructor]
    | by vm_compute | by vm_compute |].
  by apply Hmessage.
Defined.

(** C5 at a 404 response, at a success response with the classification
    answer as its body, and at a success response whose body is no
    JSON. *)
Lemma apiCall_status_handling_witness :
  (apiCall "/api/health" no_options (fresh_world [Responds not_found])).1
  = Rejected (Error "API Error: 404 Not Found")
  ∧ (apiCall "/classify" no_options (fresh_world [Responds classified])).1
    = Resolved classify_response
  ∧ (apiCall "/classify" no_options (fresh_world [Responds gateway_page])).1
    = Rejected SyntaxError.
Proof.
  split; [|split].
  - destruct (apiCall_status_handling "/api/health" no_options
                (fresh_world [Responds not_found]) not_found [] eq_refl)
      as (Hrange & Herror & _).
    rewrite Herror; [reflexivity|]. apply Hrange. by vm_compute.
  - destruct (apiCall_status_handling "/classify" no_options
                (fresh_world [Responds classified]) classified [] eq_refl)
      as (_ & _ & Hok & _).
    destruct (Hok eq_refl) as (Hbody & _).
    apply Hbody; reflexivity.
  - destruct (apiCall_status_handling "/classify" no_options
                (fresh_world [Responds gateway_page]) gateway_page [] eq_refl)
      as (_ & _ & Hok & _).
    destruct (Hok eq_refl) as (_ & _ & Hmalformed).
    apply Hmalformed. by vm_compute.
Defined.

(** C8 for [n = 2]. *)
Lemma poll_loop_unbounded_witness :
  ∃ answers issued,
    let w := fresh_world (task_response :: answers) in
    (executeTask NEWS_DISCOVERER payload w).1 = Pending
    ∧ log (executeTask NEWS_DISCOVERER payload w).2
      = submit_call NEWS_DISCOVERER payload :: issued
    ∧ (2 < count_calls (status_call t1) issued)%nat.
Proof.
  destruct (poll_loop_unbounded 2) as (answers & _ & Hrun).
  destruct (Hrun NEWS_DISCOVERER payload
              (fresh_world (task_response :: answers)) task_response
              (JObj [("task_id", JStr "t1")]))
    as (Hpending & issued & Hlog & Hcount);
    [reflexivity | by vm_compute | reflexivity |].
  by exists answers, issued.
Defined.

(** C10 at the empty task identifier. *)
Lemma executeTask_falsy_task_id_witness :
  let response := JObj [("task_id", JStr EmptyString); ("articles", JArr [])] in
  executeTask NEWS_DISCOVERER payload (fresh_world [json_response response])
  = (Resolved response,
     {| network := []; log := [submit_call NEWS_DISCOVERER payload] |}).
Proof.
  intros response.
  apply (executeTask_falsy_task_id NEWS_DISCOVERER payload
           (fresh_world [json_response response]) (json_response response) []
           [("task_id", JStr EmptyString); ("articles", JArr [])]
           (JStr EmptyString));
    [reflexivity | by vm_compute | reflexivity | by left].
Defined.
End Samples.

Section CacheSamples.
#[local] Existing Instance local_env.





(** C7 at a stored text that is no JSON, and at an empty storage. *)
Lemma loadFromDiscoverer_absent_witness :
  let corrupted :=
    fresh_tab {["bynd:last_discovered_articles" := "{oops"]}
      (classifier_page discovered_articles) in
  let empty := fresh_tab ∅ (classifier_page discovered_articles) in
  absent_outcome (AlertText "Failed to load discovered articles")
    corrupted (Classifier.loadFromDiscoverer corrupted)
  ∧ absent_outcome
      (AlertText "No discovered articles found. Run News Discoverer first.")
      empty (Classifier.loadFromDiscoverer empty).
Proof.
  intros corrupted empty. split.
  - destruct (loadFromDiscoverer_absent corrupted) as (_ & _ & Hcorrupted).
    by apply (Hcorrupted "{oops").
  - destruct (loadFromDiscoverer_absent empty) as (_ & Hnone & _).
    by apply Hnone.
Defined.
End CacheSamples.
